(** * HealthMateAI: the audio playback timing engine and its callers

    A shallow embedding of [src/components/AudioPlayer.tsx], of the service
    module it gets its payload from and of [src/App.tsx], which mounts it.
    The definitions come first: the service and the application, then the
    player; the properties of the player follow its definitions, those of
    the service and the application close the file.

    Time values are JavaScript numbers in the source; here they are exact
    rationals ([Q]), so every statement below is about the arithmetic the
    code writes down, with the rounding of the floating-point unit left out.
    A rational of the model stands for the binary64 number of that exact
    value.  The one test against a decimal constant, the 0.1 of the play
    toggle, is sensitive to this reading: it is also given on binary64
    numbers ([Binary64.nearEnd]) and compared with the model there, and the
    statements that depend on its outcome keep clear of a distance of
    exactly 0.1.

    The component keeps two kinds of storage, and the handlers treat them
    differently:
    - [useState] cells ([isPlaying], [error], [duration], [currentTime],
      [playbackRate], [isLoading]): a handler reads the value captured by the
      render that created it, and [setX] only takes effect for the next
      render;
    - [useRef] cells ([audioContextRef], [audioBufferRef], [sourceNodeRef],
      [startTimeRef], [offsetRef]): read and written in place.

    Every handler below therefore takes two players: [c], the render whose
    closure it is (only its [useState] fields are read), and [p], the store
    being updated.  One event of the component is one handler run with
    [c := p]. *)

From Stdlib Require Import QArith Qabs Qminmax Qround Lqa Lia ZArith.
From Stdlib Require Import String Ascii DecimalString List Bool.
From Stdlib Require PrimFloat FloatOps SpecFloat.
Import ListNotations.

Open Scope Q_scope.

(** * The callers of the player: the AI service and the application

    [src/services/audioUtils.ts] (second part, the service module imported
    as [geminiService]) and [src/App.tsx].  The calls to the hosted model
    and to the browser ([FileReader], [JSON.parse]) are taken by their
    outcome; what is embedded is what the code does with each outcome. *)

Module Types.

(** [SummaryCardData] and [AnalysisResult] of the type declarations. *)
Record SummaryCardData : Type := mkSummaryCardData {
  medicines : list string;
  howToTake : string;
  warnings : string;
  interactions : string;
  avoid : string;
  whenToReturn : string;
  nextSteps : string
}.

Record AnalysisResult : Type := mkAnalysisResult {
  rawText : string;
  simplifiedExplanation : string;
  summaryCard : SummaryCardData;
  audioBase64 : option string
}.

Inductive AppState : Type :=
| IDLE | ANALYZING | GENERATING_AUDIO | SUCCESS | ERROR.

End Types.

Module GeminiService.
Import Types.

Inductive ErrorType : Type := API | NETWORK | PARSING | AUDIO.

(** [class ServiceError extends Error]: its [message] and its [type]. *)
Record ServiceError : Type := mkServiceError {
  message : string;
  type : ErrorType
}.

(** What a [catch (error: any)] of this module can hold: a [ServiceError],
    or another error object, of which the handlers only read [.message]
    (absent or a string) and [.status] (absent or a number). *)
Inductive Thrown : Type :=
| ThrownService (e : ServiceError)
| ThrownOther (message : option string) (status : option Z).

(** [s.includes(sub)] *)
Fixpoint includes (s sub : string) : bool :=
  String.prefix sub s
  || match s with
     | EmptyString => false
     | String _ s' => includes s' sub
     end.

(** [error.message?.includes(sub)], read as a condition. *)
Definition messageIncludes (m : option string) (sub : string) : bool :=
  match m with
  | Some s => includes s sub
  | None => false
  end.

(** [error.status === code] *)
Definition statusIs (st : option Z) (code : Z) : bool :=
  match st with
  | Some z => Z.eqb z code
  | None => false
  end.

(** A string used as a condition: every string but the empty one. *)
Definition truthy (s : string) : bool := negb (String.eqb s EmptyString).

(** [s.split(sep)] for a one-character separator. *)
Fixpoint splitFrom (sep : ascii) (acc : string) (s : string) : list string :=
  match s with
  | EmptyString => [acc]
  | String c s' =>
      if Ascii.eqb c sep then acc :: splitFrom sep EmptyString s'
      else splitFrom sep (acc ++ String c EmptyString) s'
  end.

Definition split (sep : ascii) (s : string) : list string :=
  splitFrom sep EmptyString s.

(** How the [FileReader] ends: [onerror], or [onloadend] with
    [reader.result] ([None] for [null]). *)
Inductive ReadOutcome : Type :=
| ReadFailed
| ReadLoaded (result : option string).

(** [fileToGenerativePart] (lines 61-77): the rejection, or the value the
    promise resolves with, which is [undefined] ([None]) when the result
    holds no comma. *)
Definition fileToGenerativePart (r : ReadOutcome)
    : ServiceError + option string :=
  match r with
  | ReadFailed =>
      inl (mkServiceError "Error reading the file. Please try again." PARSING)
  | ReadLoaded result =>
      match result with
      | Some base64String =>
          if truthy base64String
          then inr (nth_error (split "," base64String) 1)
          else inl (mkServiceError "Failed to read the file." PARSING)
      | None => inl (mkServiceError "Failed to read the file." PARSING)
      end
  end.

(** How a call of [ai.models.generateContent] ends: it throws an error
    object, or returns the part of the response the caller reads. *)
Inductive SdkOutcome (A : Type) : Type :=
| SdkThrows (message : option string) (status : option Z)
| SdkReturns (a : A).
Arguments SdkThrows {A} message status.
Arguments SdkReturns {A} a.

(** The [catch] around the file read (lines 85-87). *)
Definition readCatch (error : Thrown) : ServiceError :=
  match error with
  | ThrownService e => e
  | ThrownOther _ _ =>
      mkServiceError "Failed to process the image file." PARSING
  end.

(** The outer [catch] of [analyzeMedicalDocument] (lines 180-201). *)
Definition analysisCatch (error : Thrown) : ServiceError :=
  match error with
  | ThrownService e => e
  | ThrownOther m st =>
      if messageIncludes m "fetch failed" || messageIncludes m "network" then
        mkServiceError "Please check your internet connection." NETWORK
      else if statusIs st 403 || messageIncludes m "API_KEY" then
        mkServiceError
          "Authentication failed. Please check your API configuration." API
      else if statusIs st 503 then
        mkServiceError
          "The service is temporarily overloaded. Please try again in a moment."
          API
      else if statusIs st 429 then
        mkServiceError
          "Too many requests. Please wait a moment before trying again." API
      else
        mkServiceError
          "We couldn't analyze this document. Please ensure it's a clear medical image."
          API
  end.

(** What [JSON.parse(textResponse)] gives, read at the declared type. *)
Record AnalysisData : Type := mkAnalysisData {
  dataRawText : string;
  dataSimplifiedExplanation : string;
  dataSummaryCard : SummaryCardData
}.

(** [analyzeMedicalDocument] (lines 79-202).  [read] is how the file read
    ends, [sdk] how the model call ends ([analysisResponse.text], absent or
    a string), [parse] is [JSON.parse] ([None] when it throws). *)
Definition analyzeMedicalDocument (read : ReadOutcome)
    (sdk : SdkOutcome (option string))
    (parse : string -> option AnalysisData)
    : ServiceError + AnalysisResult :=
  match fileToGenerativePart read with
  | inl e => inl (readCatch (ThrownService e))
  | inr base64Image =>
      let attempt : Thrown + AnalysisResult :=
        match sdk with
        | SdkThrows m st => inl (ThrownOther m st)
        | SdkReturns textResponse =>
            match textResponse with
            | Some text =>
                if truthy text then
                  match parse text with
                  | Some analysisData =>
                      inr (mkAnalysisResult (dataRawText analysisData)
                             (dataSimplifiedExplanation analysisData)
                             (dataSummaryCard analysisData) None)
                  | None =>
                      inl (ThrownService
                             (mkServiceError
                                "We couldn't interpret the document structure. Please try a clearer photo."
                                PARSING))
                  end
                else
                  inl (ThrownService
                         (mkServiceError
                            "The AI model returned an empty response." API))
            | None =>
                inl (ThrownService
                       (mkServiceError
                          "The AI model returned an empty response." API))
            end
        end in
      match attempt with
      | inl error => inl (analysisCatch error)
      | inr r => inr r
      end
  end.

(** The [catch] of [generateAudioExplanation] (lines 236-245). *)
Definition audioCatch (error : Thrown) : ServiceError :=
  match error with
  | ThrownService e => e
  | ThrownOther m _ =>
      if messageIncludes m "fetch failed" then
        mkServiceError "Network error while generating audio." NETWORK
      else
        mkServiceError
          "We couldn't generate the audio explanation at this time." AUDIO
  end.

(** [generateAudioExplanation] (lines 204-246).  The model call returns
    [candidates?.[0]?.content?.parts?.[0]?.inlineData?.data]: [None] when a
    link of the chain is missing. *)
Definition generateAudioExplanation (sdk : SdkOutcome (option string))
    : ServiceError + string :=
  let attempt : Thrown + string :=
    match sdk with
    | SdkThrows m st => inl (ThrownOther m st)
    | SdkReturns (Some data) =>
        if truthy data then inr data
        else
          inl (ThrownService
                 (mkServiceError
                    "Audio generation failed: No audio data received." AUDIO))
    | SdkReturns None =>
        inl (ThrownService
               (mkServiceError
                  "Audio generation failed: No audio data received." AUDIO))
    end in
  match attempt with
  | inl error => inl (audioCatch error)
  | inr data => inr data
  end.

(** Every message this module puts into a [ServiceError]. *)
Definition serviceMessages : list string :=
  [ "Error reading the file. Please try again.";
    "Failed to read the file.";
    "Failed to process the image file.";
    "The AI model returned an empty response.";
    "We couldn't interpret the document structure. Please try a clearer photo.";
    "Please check your internet connection.";
    "Authentication failed. Please check your API configuration.";
    "The service is temporarily overloaded. Please try again in a moment.";
    "Too many requests. Please wait a moment before trying again.";
    "We couldn't analyze this document. Please ensure it's a clear medical image.";
    "Audio generation failed: No audio data received.";
    "Network error while generating audio.";
    "We couldn't generate the audio explanation at this time." ]%string.

End GeminiService.

Module App.
Import Types.

(** A [File] of the browser: only its presence matters to the component. *)
Record File : Type := mkFile {
  fileName : string;
  fileType : string
}.

(** The four [useState] cells of [App] (lines 9-12). *)
Record Model : Type := mkModel {
  file : option File;
  appState : AppState;
  result : option AnalysisResult;
  error : option string
}.

Definition initial : Model := mkModel None IDLE None None.

Definition setAppState (s : Model) (a : AppState) : Model :=
  mkModel (file s) a (result s) (error s).

Definition setResult (s : Model) (r : option AnalysisResult) : Model :=
  mkModel (file s) (appState s) r (error s).

Definition setError (s : Model) (e : option string) : Model :=
  mkModel (file s) (appState s) (result s) e.

(** [handleFileSelect] (lines 14-19). *)
Definition handleFileSelect (selectedFile : File) (s : Model) : Model :=
  mkModel (Some selectedFile) IDLE None None.

Definition defaultMessage : string :=
  "We couldn't process this image. Please ensure it's a clear photo of a medical document and try again.".

(** The message chosen in the [catch] of [handleProcess] (lines 42-52). *)
Definition messageFor (err : GeminiService.Thrown) : string :=
  match err with
  | GeminiService.ThrownService e => GeminiService.message e
  | GeminiService.ThrownOther (Some m) _ =>
      if GeminiService.truthy m then
        if negb (GeminiService.includes m "Unexpected token")
           && negb (GeminiService.includes m "fetch")
        then m
        else defaultMessage
      else defaultMessage
  | GeminiService.ThrownOther None _ => defaultMessage
  end.

(** The [catch] of [handleProcess] (lines 39-56). *)
Definition processFailed (err : GeminiService.Thrown) (s : Model) : Model :=
  let s := setError s (Some (messageFor err)) in
  setAppState s ERROR.

(** [{ ...prev, audioBase64: audioData }] *)
Definition withAudio (prev : AnalysisResult) (audioData : string)
    : AnalysisResult :=
  mkAnalysisResult (rawText prev) (simplifiedExplanation prev)
    (summaryCard prev) (Some audioData).

(** [handleProcess] (lines 21-57), run to its end: both awaited calls
    have settled ([handleProcessSoFar] below has the states in which one of
    them is still pending).  [c] is the render whose closure the handler is
    ([file] is read from it); [analysis] and [audio] are how the two
    awaited calls end. *)
Definition handleProcess (c : Model)
    (analysis : GeminiService.Thrown + AnalysisResult)
    (audio : GeminiService.Thrown + string) (s : Model) : Model :=
  match file c with
  | None => s
  | Some _ =>
      let s := setAppState s ANALYZING in
      let s := setError s None in
      match analysis with
      | inl err => processFailed err s
      | inr analysisData =>
          let s := setResult s (Some analysisData) in
          let s := setAppState s GENERATING_AUDIO in
          match audio with
          | inl err => processFailed err s
          | inr audioData =>
              let s :=
                setResult s
                  (match result s with
                   | Some prev => Some (withAudio prev audioData)
                   | None => None
                   end) in
              setAppState s SUCCESS
          end
      end
  end.

(** An awaited call: not settled yet, or settled with its outcome. *)
Inductive Awaited (A : Type) : Type :=
| Pending
| Settled (outcome : GeminiService.Thrown + A).
Arguments Pending {A}.
Arguments Settled {A} outcome.

(** [handleProcess] (lines 21-57) as far as its awaited calls have settled:
    the state the component rests in while the handler is suspended at an
    [await], and the state at its end once both calls have settled.  The
    source sets no timeout on either call. *)
Definition handleProcessSoFar (c : Model)
    (analysis : Awaited AnalysisResult) (audio : Awaited string)
    (s : Model) : Model :=
  match file c with
  | None => s
  | Some _ =>
      let s := setAppState s ANALYZING in
      let s := setError s None in
      match analysis with
      | Pending => s
      | Settled (inl err) => processFailed err s
      | Settled (inr analysisData) =>
          let s := setResult s (Some analysisData) in
          let s := setAppState s GENERATING_AUDIO in
          match audio with
          | Pending => s
          | Settled (inl err) => processFailed err s
          | Settled (inr audioData) =>
              let s :=
                setResult s
                  (match result s with
                   | Some prev => Some (withAudio prev audioData)
                   | None => None
                   end) in
              setAppState s SUCCESS
          end
      end
  end.

(** A rejection of a service, as the [catch] of the caller sees it. *)
Definition rejected {A : Type} (r : GeminiService.ServiceError + A)
    : GeminiService.Thrown + A :=
  match r with
  | inl e => inl (GeminiService.ThrownService e)
  | inr a => inr a
  end.

(** [handleProcess] with the two services of the module in place. *)
Definition processDocument (read : GeminiService.ReadOutcome)
    (sdkAnalysis : GeminiService.SdkOutcome (option string))
    (parse : string -> option GeminiService.AnalysisData)
    (sdkAudio : GeminiService.SdkOutcome (option string))
    (s : Model) : Model :=
  handleProcess s
    (rejected (GeminiService.analyzeMedicalDocument read sdkAnalysis parse))
    (rejected (GeminiService.generateAudioExplanation sdkAudio)) s.

(** [handleProcessSoFar] with the two services of the module in place:
    [analysis] and [audio] are [None] while the call has not settled, and
    otherwise how its file read and model call ended. *)
Definition processDocumentSoFar
    (analysis :
       option (GeminiService.ReadOutcome
               * GeminiService.SdkOutcome (option string)))
    (parse : string -> option GeminiService.AnalysisData)
    (audio : option (GeminiService.SdkOutcome (option string)))
    (s : Model) : Model :=
  handleProcessSoFar s
    (match analysis with
     | Some (read, sdk) =>
         Settled
           (rejected (GeminiService.analyzeMedicalDocument read sdk parse))
     | None => Pending
     end)
    (match audio with
     | Some sdk =>
         Settled (rejected (GeminiService.generateAudioExplanation sdk))
     | None => Pending
     end) s.

(** What the render shows (lines 98, 162 and 194). *)

(** [disabled] of the upload widget. *)
Definition uploadDisabled (s : Model) : bool :=
  match appState s with
  | ANALYZING | GENERATING_AUDIO => true
  | _ => false
  end.

(** [result.audioBase64 && <AudioPlayer audioBase64={...} />]: the payload
    the player is mounted with, if it is mounted. *)
Definition playerPayload (s : Model) : option string :=
  match result s with
  | Some r =>
      match audioBase64 r with
      | Some b => if GeminiService.truthy b then Some b else None
      | None => None
      end
  | None => None
  end.

(** The condition under which the action button is rendered. *)
Definition actionButtonShown (s : Model) : bool :=
  match file s, result s with
  | Some _, None => negb (uploadDisabled s)
  | _, _ => false
  end.

End App.

(** * The player *)

Module AudioPlayer.

(** ** The Web Audio objects the component touches *)

Inductive ContextState : Type := Suspended | Running | Closed.

(** [AudioContext]: its graph clock [currentTime] and its [state]. *)
Record AudioContext : Type := mkContext {
  ctxCurrentTime : Q;
  ctxState : ContextState
}.

(** [AudioBuffer]: only [buffer.duration] is ever read. *)
Record AudioBuffer : Type := mkBuffer {
  bufDuration : Q
}.

(** [AudioBufferSourceNode]: one playback session.  [nodeOffset] is the
    second argument of [source.start(0, offset)], [nodeRate] the value of
    [source.playbackRate], [nodeStopped] whether [stop()] was called. *)
Record SourceNode : Type := mkSource {
  nodeBuffer : AudioBuffer;
  nodeRate : Q;
  nodeOffset : Q;
  nodeStopped : bool
}.

(** ** The component's storage *)

Record Player : Type := mkPlayer {
  (* useState *)
  isPlaying : bool;
  isLoading : bool;
  error : option string;
  duration : Q;
  currentTime : Q;
  playbackRate : Q;
  (* useRef *)
  audioContextRef : option AudioContext;
  audioBufferRef : option AudioBuffer;
  sourceNodeRef : option SourceNode;
  startTimeRef : Q;
  offsetRef : Q
}.

(** The values of the [useState] and [useRef] initialisers (lines 9-22). *)
Definition initial : Player :=
  {| isPlaying := false; isLoading := false; error := None;
     duration := 0; currentTime := 0; playbackRate := 1;
     audioContextRef := None; audioBufferRef := None; sourceNodeRef := None;
     startTimeRef := 0; offsetRef := 0 |}.

Section Setters.
Variable p : Player.

Definition setIsPlaying (b : bool) : Player :=
  mkPlayer b (isLoading p) (error p) (duration p) (currentTime p)
    (playbackRate p) (audioContextRef p) (audioBufferRef p)
    (sourceNodeRef p) (startTimeRef p) (offsetRef p).

Definition setIsLoading (b : bool) : Player :=
  mkPlayer (isPlaying p) b (error p) (duration p) (currentTime p)
    (playbackRate p) (audioContextRef p) (audioBufferRef p)
    (sourceNodeRef p) (startTimeRef p) (offsetRef p).

Definition setError (e : option string) : Player :=
  mkPlayer (isPlaying p) (isLoading p) e (duration p) (currentTime p)
    (playbackRate p) (audioContextRef p) (audioBufferRef p)
    (sourceNodeRef p) (startTimeRef p) (offsetRef p).

Definition setDuration (d : Q) : Player :=
  mkPlayer (isPlaying p) (isLoading p) (error p) d (currentTime p)
    (playbackRate p) (audioContextRef p) (audioBufferRef p)
    (sourceNodeRef p) (startTimeRef p) (offsetRef p).

Definition setCurrentTime (t : Q) : Player :=
  mkPlayer (isPlaying p) (isLoading p) (error p) (duration p) t
    (playbackRate p) (audioContextRef p) (audioBufferRef p)
    (sourceNodeRef p) (startTimeRef p) (offsetRef p).

Definition setPlaybackRate (r : Q) : Player :=
  mkPlayer (isPlaying p) (isLoading p) (error p) (duration p)
    (currentTime p) r (audioContextRef p) (audioBufferRef p)
    (sourceNodeRef p) (startTimeRef p) (offsetRef p).

Definition putAudioContext (c : option AudioContext) : Player :=
  mkPlayer (isPlaying p) (isLoading p) (error p) (duration p)
    (currentTime p) (playbackRate p) c (audioBufferRef p)
    (sourceNodeRef p) (startTimeRef p) (offsetRef p).

Definition putAudioBuffer (b : option AudioBuffer) : Player :=
  mkPlayer (isPlaying p) (isLoading p) (error p) (duration p)
    (currentTime p) (playbackRate p) (audioContextRef p) b
    (sourceNodeRef p) (startTimeRef p) (offsetRef p).

Definition putSourceNode (n : option SourceNode) : Player :=
  mkPlayer (isPlaying p) (isLoading p) (error p) (duration p)
    (currentTime p) (playbackRate p) (audioContextRef p)
    (audioBufferRef p) n (startTimeRef p) (offsetRef p).

Definition putStartTime (t : Q) : Player :=
  mkPlayer (isPlaying p) (isLoading p) (error p) (duration p)
    (currentTime p) (playbackRate p) (audioContextRef p)
    (audioBufferRef p) (sourceNodeRef p) t (offsetRef p).

Definition putOffset (t : Q) : Player :=
  mkPlayer (isPlaying p) (isLoading p) (error p) (duration p)
    (currentTime p) (playbackRate p) (audioContextRef p)
    (audioBufferRef p) (sourceNodeRef p) (startTimeRef p) t.
End Setters.

(** ** Comparisons of numbers, as booleans *)

(** [x >= y] *)
Definition Qgeb (x y : Q) : bool := Qle_bool y x.

(** [x < y] *)
Definition Qltb (x y : Q) : bool := negb (Qle_bool y x).

(** ** Messages *)

Definition decodeErrorMessage : string :=
  "Unable to play audio. The format might not be supported.".

Definition playbackErrorMessage : string :=
  "Playback failed. Please try again.".

(** ** Handlers *)

(** [sourceNodeRef.current.stop()] inside [try { } catch(e) {}]: whether or
    not [stop] throws, the handler goes on, and the node is not heard
    again. *)
Definition stopNode (n : SourceNode) : SourceNode :=
  mkSource (nodeBuffer n) (nodeRate n) (nodeOffset n) true.

(** [audioContextRef.current.resume()] when the context is suspended. *)
Definition resume (ctx : AudioContext) : AudioContext :=
  match ctxState ctx with
  | Suspended => mkContext (ctxCurrentTime ctx) Running
  | _ => ctx
  end.

(** [playAudio] (lines 93-117).  [startOk] is the outcome of the [try]
    block: [false] when creating or starting the source node throws. *)
Definition playAudio (c : Player) (startOk : bool) (p : Player) : Player :=
  match audioContextRef p, audioBufferRef p with
  | Some ctx, Some buf =>
      let ctx := resume ctx in
      let p := putAudioContext p (Some ctx) in
      if startOk then
        let source := mkSource buf (playbackRate c) (offsetRef p) false in
        let p := putSourceNode p (Some source) in
        let p := putStartTime p (ctxCurrentTime ctx) in
        setIsPlaying p true
      else
        let p := setError p (Some playbackErrorMessage) in
        setIsPlaying p false
  | _, _ => p
  end.

(** The first block of [pauseAudio] and of [stopAudio]: stop the session
    and forget it. *)
Definition discardSession (p : Player) : Player :=
  match sourceNodeRef p with
  | Some _ => putSourceNode p None
  | None => p
  end.

(** [pauseAudio] (lines 119-134). *)
Definition pauseAudio (c : Player) (p : Player) : Player :=
  let p := discardSession p in
  let p :=
    match audioContextRef p with
    | Some ctx =>
        if isPlaying c then
          let now := ctxCurrentTime ctx in
          let elapsed := (now - startTimeRef p) * playbackRate c in
          let p := putOffset p (Qmin (offsetRef p + elapsed) (duration c)) in
          setCurrentTime p (offsetRef p)
        else p
    | None => p
    end in
  setIsPlaying p false.

(** [stopAudio] (lines 136-142). *)
Definition stopAudio (p : Player) : Player :=
  let p := discardSession p in
  setIsPlaying p false.

(** [handleEnded] (lines 144-148). *)
Definition handleEnded (p : Player) : Player :=
  let p := stopAudio p in
  let p := putOffset p 0 in
  setCurrentTime p 0.

(** [togglePlay] (lines 150-163).  The numbers of the model stand for
    the binary64 numbers the component holds, each by its exact value, and
    the test [Math.abs(duration - offsetRef.current) < 0.1] is decided
    here on the exact difference against one tenth.  The source decides it
    on the rounded difference against the binary64 number nearest to 0.1,
    so the two can part within an ulp of a distance of 0.1; a decimal such
    as 9.9 must be given by the value of its binary64 number
    ([binary64_9_9] below) to be compared with the source. *)
Definition togglePlay (c : Player) (startOk : bool) (p : Player) : Player :=
  match error c with
  | Some _ => p
  | None =>
      if isPlaying c then pauseAudio c p
      else
        let p :=
          if Qltb (Qabs (duration c - offsetRef p)) 0.1 then
            let p := putOffset p 0 in
            setCurrentTime p 0
          else p in
        playAudio c startOk p
  end.

(** The rates the speed button cycles through (line 168). *)
Definition speeds : list Q := [0.75; 1; 1.25].

(** [Array.prototype.indexOf]: the first index holding a number equal to
    [x], counted from [i]; [-1] when there is none. *)
Fixpoint indexFrom (i : Z) (x : Q) (l : list Q) : Z :=
  match l with
  | [] => (-1)%Z
  | y :: l' => if Qeq_bool y x then i else indexFrom (i + 1)%Z x l'
  end.

Definition indexOf (x : Q) (l : list Q) : Z := indexFrom 0%Z x l.

(** [(speeds.indexOf(playbackRate) + 1) % speeds.length] *)
Definition nextIdx (rate : Q) : Z :=
  Z.rem (indexOf rate speeds + 1) (Z.of_nat (List.length speeds)).

(** [speeds[nextIdx]]; the index is always inside the array (lemma
    [nextIdx_in_range]), so the default of [nth] is never returned. *)
Definition nextRate (rate : Q) : Q :=
  nth (Z.to_nat (nextIdx rate)) speeds 0.

(** [source.playbackRate.setValueAtTime(newRate, now)] *)
Definition setNodeRate (n : SourceNode) (r : Q) : SourceNode :=
  mkSource (nodeBuffer n) r (nodeOffset n) (nodeStopped n).

(** [cycleSpeed] (lines 165-192).  [rateOk] is the outcome of the inner
    [try]: [false] when [setValueAtTime] throws, which the handler logs and
    ignores. *)
Definition cycleSpeed (c : Player) (rateOk : bool) (p : Player) : Player :=
  match error c with
  | Some _ => p
  | None =>
      let newRate := nextRate (playbackRate c) in
      let p :=
        match isPlaying c, audioContextRef p, sourceNodeRef p with
        | true, Some ctx, Some node =>
            let now := ctxCurrentTime ctx in
            let elapsedSinceStart := now - startTimeRef p in
            let p :=
              putOffset p (offsetRef p + elapsedSinceStart * playbackRate c) in
            let p := putStartTime p now in
            if rateOk then putSourceNode p (Some (setNodeRate node newRate))
            else p
        | _, _, _ => p
        end in
      setPlaybackRate p newRate
  end.

(** [handleSeek] (lines 194-208).  [newTime] is
    [parseFloat(e.target.value)], the position of the range input. *)
Definition handleSeek (c : Player) (newTime : Q) (startOk : bool)
    (p : Player) : Player :=
  match error c with
  | Some _ => p
  | None =>
      let p := putOffset p newTime in
      let p := setCurrentTime p newTime in
      if isPlaying c then
        let p :=
          match sourceNodeRef p with
          | Some n => putSourceNode p (Some (stopNode n))
          | None => p
          end in
        playAudio c startOk p
      else p
  end.

(** [updateProgress] (lines 69-82), the body of one animation frame.  The
    effect that owns it is re-created whenever [isPlaying], [duration] or
    [playbackRate] change, so its closure is always the current render. *)
Definition updateProgress (c : Player) (p : Player) : Player :=
  match isPlaying c, audioContextRef p with
  | true, Some ctx =>
      let now := ctxCurrentTime ctx in
      let elapsed := (now - startTimeRef p) * playbackRate c in
      let current := offsetRef p + elapsed in
      if Qgeb current (duration c) then handleEnded p
      else setCurrentTime p current
  | _, _ => p
  end.

(** The clean-up of the first effect (lines 57-64): it runs before the
    effect is run again for a new [audioBase64], and on unmount. *)
Definition cleanup (p : Player) : Player :=
  let p := stopAudio p in
  match audioContextRef p with
  | Some ctx =>
      match ctxState ctx with
      | Closed => p
      | _ => putAudioContext p None
      end
  | None => p
  end.

(** [new AudioContext({sampleRate: 24000})]: the clock starts at zero; the
    browser decides whether the context starts suspended. *)
Definition newAudioContext (st : ContextState) : AudioContext :=
  mkContext 0 st.

(** [initAudio] (lines 27-53).  [decoded] is the outcome of
    [await decodeAudioData(audioBase64, ctx)]: [None] when it rejects
    ([atob] or the platform decoder refuses the payload). *)
Definition initAudio (audioBase64 : string) (st : ContextState)
    (decoded : option AudioBuffer) (p : Player) : Player :=
  if String.eqb audioBase64 EmptyString then p
  else
    let p := setIsLoading p true in
    let p := setError p None in
    let p :=
      match audioContextRef p with
      | None => putAudioContext p (Some (newAudioContext st))
      | Some _ => p
      end in
    let p :=
      match decoded with
      | Some buffer =>
          let p := putAudioBuffer p (Some buffer) in
          let p := setDuration p (bufDuration buffer) in
          let p := putOffset p 0 in
          let p := setCurrentTime p 0 in
          setIsPlaying p false
      | None => setError p (Some decodeErrorMessage)
      end in
    setIsLoading p false.

(** ** Events *)

(** The graph clock moves on by [dt] seconds. *)
Definition advanceClock (dt : Q) (p : Player) : Player :=
  match audioContextRef p with
  | Some ctx =>
      putAudioContext p (Some (mkContext (ctxCurrentTime ctx + dt) (ctxState ctx)))
  | None => p
  end.

(** What can happen to the component.  [Load] is a new [audioBase64]
    prop: the clean-up of the previous effect, then [initAudio], taken as
    one step (the [await] inside is not interleaved with other events).
    [Frame] is one call of [updateProgress] by [requestAnimationFrame]; the
    component only schedules it while playing, and the body checks
    [isPlaying] itself, so a frame outside playback is a no-op here too
    ([animationFrameRef], which only holds the handle used to cancel the
    next frame, is not part of the store).  The booleans are the outcomes
    of the [try] blocks. *)
Inductive Event : Type :=
| Load (audioBase64 : string) (st : ContextState) (decoded : option AudioBuffer)
| Advance (dt : Q)
| Frame
| TogglePlay (startOk : bool)
| CycleSpeed (rateOk : bool)
| Seek (newTime : Q) (startOk : bool).

(** One event: the handler runs in the closure of the current render. *)
Definition step (e : Event) (p : Player) : Player :=
  match e with
  | Load b64 st decoded => initAudio b64 st decoded (cleanup p)
  | Advance dt => advanceClock dt p
  | Frame => updateProgress p p
  | TogglePlay ok => togglePlay p ok p
  | CycleSpeed ok => cycleSpeed p ok p
  | Seek t ok => handleSeek p t ok p
  end.

Definition run (es : list Event) (p : Player) : Player :=
  fold_left (fun q e => step e q) es p.

(** What the platform and the rendered controls allow: the clock never
    runs backwards, a decoded buffer has a non-negative duration, and the
    range input ([min="0"], [max={duration || 100}], disabled while
    loading or when [duration === 0]) only reports positions inside its
    track, which is [0, duration] whenever it is not disabled. *)
Definition enabled (e : Event) (p : Player) : Prop :=
  match e with
  | Load _ _ (Some buffer) => 0 <= bufDuration buffer
  | Load _ _ None => True
  | Advance dt => 0 <= dt
  | Frame => True
  | TogglePlay _ => isLoading p = false
  | CycleSpeed _ => True
  | Seek t _ =>
      isLoading p = false /\ ~ duration p == 0 /\ 0 <= t /\ t <= duration p
  end.

Inductive reachable : Player -> Prop :=
| reachable_initial : reachable initial
| reachable_step e p : reachable p -> enabled e p -> reachable (step e p).

(** The position the engine is at: the stored offset when not playing,
    and the formula of [updateProgress] when playing. *)
Definition projected (p : Player) : Q :=
  match audioContextRef p with
  | Some ctx =>
      offsetRef p + (ctxCurrentTime ctx - startTimeRef p) * playbackRate p
  | None => offsetRef p
  end.

(** ** Predicates on events, traces and states *)

(** The three transport commands of the rendered controls. *)
Definition isTransport (e : Event) : bool :=
  match e with
  | TogglePlay _ | CycleSpeed _ | Seek _ _ => true
  | _ => false
  end.

(** Every event of a trace is allowed in the state it meets. *)
Fixpoint enabledAll (es : list Event) (p : Player) : Prop :=
  match es with
  | [] => True
  | e :: es' => enabled e p /\ enabledAll es' (step e p)
  end.

(** A speed change is timely when it does not come after the projected
    time has passed the duration (that is, a frame had no occasion to end
    playback before the button was pressed). *)
Definition timely (e : Event) (p : Player) : Prop :=
  match e with
  | CycleSpeed _ => isPlaying p = true -> projected p <= duration p
  | _ => True
  end.

(** Traces whose events are allowed and whose speed changes are timely. *)
Fixpoint timelyAll (es : list Event) (p : Player) : Prop :=
  match es with
  | [] => True
  | e :: es' => enabled e p /\ timely e p /\ timelyAll es' (step e p)
  end.

(** While playing there is a context, and the session did not start in the
    future of its clock. *)
Definition clockOk (p : Player) : Prop :=
  isPlaying p = true ->
  exists ctx,
    audioContextRef p = Some ctx /\ startTimeRef p <= ctxCurrentTime ctx.

Definition wellFormed (p : Player) : Prop :=
  0 <= duration p /\ 0 <= offsetRef p /\ 0 < playbackRate p /\ clockOk p.

(** ** The time label *)

(** A JavaScript number: a finite value, or one of the three that
    [isFinite] and [isNaN] single out. *)
Inductive JSNumber : Type :=
| Finite (q : Q)
| NaN
| PlusInfinity
| MinusInfinity.

Definition isFinite (n : JSNumber) : bool :=
  match n with
  | Finite _ => true
  | _ => false
  end.

Definition isNaN (n : JSNumber) : bool :=
  match n with
  | NaN => true
  | _ => false
  end.

(** The integer part of [q], rounding towards zero. *)
Definition Qtruncate (q : Q) : Z := Z.quot (Qnum q) (Z.pos (Qden q)).

(** [x % y] on finite numbers, [y] not zero: the remainder takes the sign
    of [x]. *)
Definition jsRemainder (x y : Q) : Q := x - y * inject_Z (Qtruncate (x / y)).

(** The text of an integer-valued number in a template literal or from
    [toString()] (decimal digits; below 1e21 in absolute value). *)
Definition numberToString (z : Z) : string :=
  NilZero.string_of_int (Z.to_int z).

Fixpoint replicate (n : nat) (c : ascii) : string :=
  match n with
  | O => EmptyString
  | S n' => String c (replicate n' c)
  end.

(** [s.padStart(n, c)] for a pad of one character. *)
Definition padStart (n : nat) (c : ascii) (s : string) : string :=
  (replicate (n - String.length s) c ++ s)%string.

(** [formatTime] (lines 210-215).  The division, the remainder and the
    printing are exact here; in the source they are those of binary64
    numbers, which are exact for whole numbers below 2^53 and print in
    full below 1e21, so the two agree on the times below 2^53 s. *)
Definition formatTime (time : JSNumber) : string :=
  if negb (isFinite time) || isNaN time then "0:00"%string
  else
    match time with
    | Finite t =>
        let minutes := Qfloor (t / 60) in
        let seconds := Qfloor (jsRemainder t 60) in
        (numberToString minutes ++ ":"
         ++ padStart 2 "0" (numberToString seconds))%string
    | _ => "0:00"%string
    end.

(** The decimal digit [z], and a number below 100 written with two
    digits. *)
Definition digit (z : Z) : ascii := ascii_of_nat (48 + Z.to_nat z).

Definition twoDigits (z : Z) : string :=
  String (digit (z / 10)) (String (digit (z mod 10)) EmptyString).

(** ** Further predicates on states *)

(** The displayed time is on the track of the slider. *)
Definition displayOk (p : Player) : Prop :=
  0 <= currentTime p /\ currentTime p <= duration p.

(** [sourceNodeRef] holds a node on which [stop()] was not called. *)
Definition liveSession (p : Player) : bool :=
  match sourceNodeRef p with
  | Some n => negb (nodeStopped n)
  | None => false
  end.

(** The session follows [isPlaying]; while playing no error is recorded
    and the session plays the loaded buffer. *)
Definition sessionOk (p : Player) : Prop :=
  liveSession p = isPlaying p
  /\ (isPlaying p = true ->
      error p = None
      /\ exists buf n,
           audioBufferRef p = Some buf /\ sourceNodeRef p = Some n
           /\ nodeBuffer n = buf).

(** [duration] is the duration of the loaded buffer. *)
Definition durationOk (p : Player) : Prop :=
  duration p =
  match audioBufferRef p with
  | Some b => bufDuration b
  | None => 0
  end.

(** ** A scenario *)

(** A 10 s buffer is loaded and played from 0 at rate 1.  A frame runs at
    9.995 s, finds the projected time below the duration and lets playback
    go on; 15 ms later, before the next frame is due, the graph clock reads
    10.01. *)
Definition playedPastEnd : list Event :=
  [Load "UklGRg==" Running (Some (mkBuffer 10)); TogglePlay true;
   Advance 9.995; Frame; Advance 0.015].

(** ** The near-end test on binary64 numbers *)

Module Binary64.
Import PrimFloat.
#[local] Set Warnings "-inexact-float".

(** [Math.abs(duration - offsetRef.current) < 0.1] (line 155), on the
    binary64 numbers of the source, with its subtraction and comparison. *)
Definition nearEnd (duration offset : float) : bool :=
  ltb (abs (sub duration offset)) 0.1%float.

(** The literals 10, 9.9 and 9.8 as the source reads them: the nearest
    binary64 number. *)
Definition ten : float := 10%float.
Definition nine_point_nine : float := 9.9%float.
Definition nine_point_eight : float := 9.8%float.

(** The rational a finite binary64 number is. *)
Definition exact (x : float) : option Q :=
  match FloatOps.Prim2SF x with
  | SpecFloat.S754_zero _ => Some 0
  | SpecFloat.S754_finite s m e =>
      Some (Qred ((if s then -1 else 1) * inject_Z (Zpos m) * Qpower 2 e))
  | _ => None
  end.

End Binary64.

(** The binary64 number the source holds for the decimal 9.9:
    5573204538870989 / 2^49, a little above 9.9. *)
Definition binary64_9_9 : Q := 5573204538870989 # 562949953421312.

(** * Properties *)

(** ** Comparisons *)

Lemma Qgeb_true (x y : Q) : Qgeb x y = true <-> y <= x.
Proof. unfold Qgeb. apply Qle_bool_iff. Qed.

Lemma Qgeb_false (x y : Q) : Qgeb x y = false <-> x < y.
Proof.
  unfold Qgeb. split; intro H.
  - apply Qnot_le_lt. intro Hle. apply Qle_bool_iff in Hle. congruence.
  - destruct (Qle_bool y x) eqn:E; [|reflexivity].
    apply Qle_bool_iff in E. exfalso. apply (Qlt_not_le _ _ H E).
Qed.


Lemma Qltb_false (x y : Q) : Qltb x y = false <-> y <= x.
Proof.
  unfold Qltb. rewrite negb_false_iff. apply (Qgeb_true x y).
Qed.

(** ** The speed cycle *)

Lemma nextRate_075 : nextRate 0.75 = 1.
Proof. reflexivity. Qed.

Lemma nextRate_1 : nextRate 1 = 1.25.
Proof. reflexivity. Qed.

Lemma nextRate_125 : nextRate 1.25 = 0.75.
Proof. reflexivity. Qed.

(** Whatever the current rate is, the next index is a valid index. *)
Lemma nextIdx_in_range (r : Q) :
  (0 <= nextIdx r < Z.of_nat (List.length speeds))%Z.
Proof.
  unfold nextIdx, indexOf, speeds. cbn [indexFrom List.length].
  destruct (Qeq_bool 0.75 r); [cbn; lia|].
  destruct (Qeq_bool 1 r); [cbn; lia|].
  destruct (Qeq_bool 1.25 r); cbn; lia.
Qed.

Lemma nextRate_in_speeds (r : Q) : In (nextRate r) speeds.
Proof.
  unfold nextRate, nextIdx, indexOf, speeds. cbn [indexFrom List.length].
  destruct (Qeq_bool 0.75 r); [cbn; tauto|].
  destruct (Qeq_bool 1 r); [cbn; tauto|].
  destruct (Qeq_bool 1.25 r); cbn; tauto.
Qed.

Lemma speeds_positive (r : Q) : In r speeds -> 0 < r.
Proof.
  unfold speeds. cbn. intros [H|[H|[H|[]]]]; subst r; reflexivity.
Qed.

(** ** Which fields a handler leaves alone *)

Lemma playAudio_playbackRate c ok p :
  playbackRate (playAudio c ok p) = playbackRate p.
Proof.
  unfold playAudio.
  destruct (audioContextRef p), (audioBufferRef p), ok; reflexivity.
Qed.

Lemma pauseAudio_playbackRate c p :
  playbackRate (pauseAudio c p) = playbackRate p.
Proof.
  unfold pauseAudio, discardSession.
  destruct (sourceNodeRef p); cbn;
    destruct (audioContextRef p); cbn; destruct (isPlaying c); reflexivity.
Qed.

Lemma cleanup_playbackRate p : playbackRate (cleanup p) = playbackRate p.
Proof.
  unfold cleanup, stopAudio, discardSession.
  destruct (sourceNodeRef p); cbn;
    destruct (audioContextRef p) as [[t []]|]; reflexivity.
Qed.

(** The rate after one event: only the speed button changes it. *)
Lemma step_playbackRate (e : Event) (p : Player) :
  playbackRate (step e p) =
  match e, error p with
  | CycleSpeed _, None => nextRate (playbackRate p)
  | _, _ => playbackRate p
  end.
Proof.
  destruct e as [b64 st decoded|dt| |ok|ok|t ok]; cbn [step].
  - unfold initAudio. destruct (String.eqb b64 EmptyString).
    + now rewrite cleanup_playbackRate; destruct (error p).
    + transitivity (playbackRate (cleanup p)).
      * generalize (cleanup p) as q. intro q. cbn.
        destruct decoded, (audioContextRef q); reflexivity.
      * now rewrite cleanup_playbackRate; destruct (error p).
  - unfold advanceClock. destruct (audioContextRef p), (error p); reflexivity.
  - unfold updateProgress.
    destruct (isPlaying p), (audioContextRef p) as [ctx|], (error p);
      try reflexivity;
      destruct (Qgeb _ _); try reflexivity;
      unfold handleEnded, stopAudio, discardSession;
      destruct (sourceNodeRef p); reflexivity.
  - unfold togglePlay. destruct (error p); [reflexivity|].
    destruct (isPlaying p).
    + apply pauseAudio_playbackRate.
    + rewrite playAudio_playbackRate. destruct (Qltb _ _); reflexivity.
  - unfold cycleSpeed. destruct (error p); reflexivity.
  - unfold handleSeek. destruct (error p); [reflexivity|].
    destruct (isPlaying p); [|reflexivity].
    rewrite playAudio_playbackRate. destruct (sourceNodeRef _); reflexivity.
Qed.

Lemma reachable_run (es : list Event) (p : Player) :
  reachable p -> enabledAll es p -> reachable (run es p).
Proof.
  revert p. induction es as [|e es IH]; intros p R En; [exact R|].
  destruct En as [En Ens]. unfold run. cbn [fold_left].
  apply IH; [now apply reachable_step|exact Ens].
Qed.

(** ** C10 *)

(** C10: the playback rate starts at 1, the speed button takes 0.75 to 1,
    1 to 1.25 and 1.25 back to 0.75, no other event changes the rate, and so
    in every state the component can reach the rate is one of 0.75, 1 and
    1.25. *)
Theorem playbackRate_always_in_speeds (p : Player) :
  reachable p ->
  playbackRate initial = 1
  /\ nextRate 0.75 = 1 /\ nextRate 1 = 1.25 /\ nextRate 1.25 = 0.75
  /\ (forall e, playbackRate (step e p) = playbackRate p
                \/ playbackRate (step e p) = nextRate (playbackRate p))
  /\ In (playbackRate p) speeds.
Proof.
  intro R. repeat split.
  - intro e. rewrite step_playbackRate. destruct e, (error p); auto.
  - induction R as [|e p R IH En].
    + cbn. tauto.
    + rewrite step_playbackRate. destruct e, (error p); auto.
      all: apply nextRate_in_speeds.
Qed.

(** After load, play, 3 s of playback and one press of the speed button
    the rate is 1.25. *)
Lemma playbackRate_always_in_speeds_witness :
  let p := run [Load "UklGRg==" Running (Some (mkBuffer 10)); TogglePlay true;
                Advance 3; CycleSpeed true] initial in
  playbackRate p = 1.25 /\ In (playbackRate p) speeds.
Proof.
  cbv zeta.
  set (p := run _ initial).
  assert (R : reachable p).
  { apply reachable_run; [constructor|].
    cbn [enabledAll]. repeat split; vm_compute; discriminate. }
  destruct (playbackRate_always_in_speeds p R) as (_ & _ & _ & _ & _ & H).
  split; [reflexivity|exact H].
Defined.

(** ** The error state *)

(** With an error recorded, a transport command returns at its first line. *)
Lemma transport_noop_on_error (e : Event) (p : Player) (msg : string) :
  error p = Some msg -> isTransport e = true -> step e p = p.
Proof.
  intros E T. destruct e; try discriminate T; cbn [step].
  - unfold togglePlay. now rewrite E.
  - unfold cycleSpeed. now rewrite E.
  - unfold handleSeek. now rewrite E.
Qed.

Lemma transport_run_noop_on_error (es : list Event) (p : Player) (msg : string) :
  error p = Some msg -> forallb isTransport es = true -> run es p = p.
Proof.
  intro E. induction es as [|e es IH]; intro T; [reflexivity|].
  cbn in T. apply andb_true_iff in T as [Te Tes].
  unfold run in *. cbn [fold_left].
  rewrite (transport_noop_on_error e p msg E Te). now apply IH.
Qed.

Lemma initAudio_decoded_clears_error b64 st buffer p :
  b64 <> EmptyString ->
  error (initAudio b64 st (Some buffer) p) = None.
Proof.
  intro N. unfold initAudio.
  destruct (String.eqb_spec b64 EmptyString) as [E|_]; [contradiction|].
  cbn. destruct (audioContextRef p); reflexivity.
Qed.

Lemma initAudio_failed_sets_error b64 st p :
  b64 <> EmptyString ->
  error (initAudio b64 st None p) = Some decodeErrorMessage.
Proof.
  intro N. unfold initAudio.
  destruct (String.eqb_spec b64 EmptyString) as [E|_]; [contradiction|].
  cbn. destruct (audioContextRef p); reflexivity.
Qed.

Lemma initAudio_failed_isPlaying b64 st p :
  isPlaying (initAudio b64 st None p) = isPlaying p.
Proof.
  unfold initAudio. destruct (String.eqb b64 EmptyString); [reflexivity|].
  cbn. destruct (audioContextRef p); reflexivity.
Qed.

Lemma cleanup_isPlaying p : isPlaying (cleanup p) = false.
Proof.
  unfold cleanup, stopAudio, discardSession.
  destruct (sourceNodeRef p); cbn;
    destruct (audioContextRef p) as [[t []]|]; reflexivity.
Qed.

(** C8: when decoding the payload fails, the component holds a non-empty
    error message and is not playing; from there the play/pause toggle, the
    seek and the speed change return the state unchanged, one by one and in
    any sequence, and loading a payload that decodes clears the error. *)
Theorem decode_failure_blocks_transport
    (p : Player) (audioBase64 : string) (st : ContextState) :
  audioBase64 <> EmptyString ->
  let q := step (Load audioBase64 st None) p in
  (exists msg, error q = Some msg /\ msg <> EmptyString)
  /\ isPlaying q = false
  /\ (forall ok, togglePlay q ok q = q)
  /\ (forall ok, cycleSpeed q ok q = q)
  /\ (forall t ok, handleSeek q t ok q = q)
  /\ (forall es, forallb isTransport es = true -> run es q = q)
  /\ (forall b64 st' buffer, b64 <> EmptyString ->
        error (step (Load b64 st' (Some buffer)) q) = None).
Proof.
  intros N q.
  assert (E : error q = Some decodeErrorMessage)
    by (apply initAudio_failed_sets_error; exact N).
  split; [exists decodeErrorMessage; split; [exact E|discriminate]|].
  split.
  { unfold q. cbn [step]. rewrite initAudio_failed_isPlaying.
    apply cleanup_isPlaying. }
  split; [intro ok; apply (transport_noop_on_error (TogglePlay ok) q _ E eq_refl)|].
  split; [intro ok; apply (transport_noop_on_error (CycleSpeed ok) q _ E eq_refl)|].
  split; [intros t ok; apply (transport_noop_on_error (Seek t ok) q _ E eq_refl)|].
  split; [intros es T; apply (transport_run_noop_on_error es q _ E T)|].
  intros b64 st' buffer N'. cbn [step].
  now apply initAudio_decoded_clears_error.
Qed.

Lemma decode_failure_blocks_transport_witness :
  let q := step (Load "UklGRg==" Running None) initial in
  error q = Some decodeErrorMessage
  /\ step (TogglePlay true) q = q
  /\ step (Seek 1 true) q = q.
Proof.
  destruct (decode_failure_blocks_transport initial "UklGRg==" Running)
    as (_ & _ & T & _ & S & _); [discriminate|].
  cbv zeta. split; [reflexivity|]. split; [apply T|apply S].
Defined.

(** ** C9 *)



(** ** Starting a session *)

(** What [playAudio] does when the context and the buffer are there and the
    session starts. *)
Lemma playAudio_started c p ctx buf :
  audioContextRef p = Some ctx -> audioBufferRef p = Some buf ->
  playAudio c true p =
  setIsPlaying
    (putStartTime
       (putSourceNode (putAudioContext p (Some (resume ctx)))
          (Some (mkSource buf (playbackRate c) (offsetRef p) false)))
       (ctxCurrentTime (resume ctx)))
    true.
Proof.
  intros C B. unfold playAudio. now rewrite C, B.
Qed.

(** What [playAudio] does when the session does not start. *)
Lemma playAudio_failed c p ctx buf :
  audioContextRef p = Some ctx -> audioBufferRef p = Some buf ->
  playAudio c false p =
  setIsPlaying
    (setError (putAudioContext p (Some (resume ctx)))
       (Some playbackErrorMessage))
    false.
Proof.
  intros C B. unfold playAudio. now rewrite C, B.
Qed.

Lemma resume_currentTime ctx : ctxCurrentTime (resume ctx) = ctxCurrentTime ctx.
Proof. destruct ctx as [t []]; reflexivity. Qed.

(** ** Single steps *)

Lemma run_cons e es p : run (e :: es) p = run es (step e p).
Proof. reflexivity. Qed.

Lemma run_nil p : run [] p = p.
Proof. reflexivity. Qed.

(** One step from a state written out in full: the event handlers on the
    states the compositions below go through. *)
Section ExplicitSteps.
Variables (ld : bool) (d ct r : Q) (ctx : AudioContext) (buf : AudioBuffer).
Variables (st off : Q).

Lemma advance_state pl er ab sn dt :
  step (Advance dt) (mkPlayer pl ld er d ct r (Some ctx) ab sn st off)
  = mkPlayer pl ld er d ct r
      (Some (mkContext (ctxCurrentTime ctx + dt) (ctxState ctx))) ab sn st off.
Proof. reflexivity. Qed.

Lemma pause_state ok ab n :
  step (TogglePlay ok)
    (mkPlayer true ld None d ct r (Some ctx) ab (Some n) st off)
  = let stopped := Qmin (off + (ctxCurrentTime ctx - st) * r) d in
    mkPlayer false ld None d stopped r (Some ctx) ab None st stopped.
Proof. reflexivity. Qed.

Lemma play_state sn :
  Qltb (Qabs (d - off)) 0.1 = false ->
  step (TogglePlay true)
    (mkPlayer false ld None d ct r (Some ctx) (Some buf) sn st off)
  = mkPlayer true ld None d ct r (Some (resume ctx)) (Some buf)
      (Some (mkSource buf r off false)) (ctxCurrentTime (resume ctx)) off.
Proof.
  intro Far. cbn [step]. unfold togglePlay.
  cbn [error isPlaying duration offsetRef]. rewrite Far. reflexivity.
Qed.

Lemma seek_paused_state ab sn t ok :
  step (Seek t ok) (mkPlayer false ld None d ct r (Some ctx) ab sn st off)
  = mkPlayer false ld None d t r (Some ctx) ab sn st t.
Proof. reflexivity. Qed.

Lemma seek_playing_state n t :
  step (Seek t true)
    (mkPlayer true ld None d ct r (Some ctx) (Some buf) (Some n) st off)
  = mkPlayer true ld None d t r (Some (resume ctx)) (Some buf)
      (Some (mkSource buf r t false)) (ctxCurrentTime (resume ctx)) t.
Proof. reflexivity. Qed.

Lemma frame_end_state ab n :
  Qgeb (off + (ctxCurrentTime ctx - st) * r) d = true ->
  step Frame (mkPlayer true ld None d ct r (Some ctx) ab (Some n) st off)
  = mkPlayer false ld None d 0 r (Some ctx) ab None st 0.
Proof.
  intro G. cbn [step]. unfold updateProgress.
  cbn [isPlaying audioContextRef startTimeRef playbackRate offsetRef duration].
  rewrite G. reflexivity.
Qed.



Lemma seek_failed_state n t :
  step (Seek t false)
    (mkPlayer true ld None d ct r (Some ctx) (Some buf) (Some n) st off)
  = mkPlayer false ld (Some playbackErrorMessage) d t r (Some (resume ctx))
      (Some buf) (Some (stopNode n)) st t.
Proof. reflexivity. Qed.

Lemma frame_not_playing er ac ab sn :
  step Frame (mkPlayer false ld er d ct r ac ab sn st off)
  = mkPlayer false ld er d ct r ac ab sn st off.
Proof. reflexivity. Qed.

End ExplicitSteps.

(** ** C1 *)

(** What [pauseAudio] followed by the helper [playAudio] does: the pause
    stores min(o + e * r, duration), and [playAudio] starts at whatever
    offset is stored. *)
Lemma pauseAudio_then_playAudio
    (p : Player) (ctx : AudioContext) (buf : AudioBuffer) (dt : Q) :
  isPlaying p = true ->
  audioContextRef p = Some ctx ->
  audioBufferRef p = Some buf ->
  let e := ctxCurrentTime ctx - startTimeRef p in
  let paused := pauseAudio p p in
  let later := advanceClock dt paused in
  let resumed := playAudio later true later in
  offsetRef paused = Qmin (offsetRef p + e * playbackRate p) (duration p)
  /\ currentTime paused = offsetRef paused
  /\ isPlaying paused = false
  /\ sourceNodeRef paused = None
  /\ isPlaying resumed = true
  /\ sourceNodeRef resumed =
       Some (mkSource buf (playbackRate p) (offsetRef paused) false)
  /\ offsetRef resumed = offsetRef paused
  /\ startTimeRef resumed = ctxCurrentTime ctx + dt.
Proof.
  intros P C B e paused later resumed.
  assert (Hp : paused =
    setIsPlaying
      (setCurrentTime
         (putOffset (discardSession p)
            (Qmin (offsetRef p + e * playbackRate p) (duration p)))
         (Qmin (offsetRef p + e * playbackRate p) (duration p)))
      false).
  { unfold paused, pauseAudio, discardSession, e.
    destruct (sourceNodeRef p); cbn; rewrite C, P; reflexivity. }
  clearbody paused.
  assert (Hn : sourceNodeRef paused = None).
  { rewrite Hp. unfold discardSession. destruct (sourceNodeRef p) eqn:S; cbn; auto. }
  assert (Hc : audioContextRef paused = Some ctx).
  { rewrite Hp. unfold discardSession. destruct (sourceNodeRef p); cbn; auto. }
  assert (Hb : audioBufferRef paused = Some buf).
  { rewrite Hp. unfold discardSession. destruct (sourceNodeRef p); cbn; auto. }
  assert (Hr : playbackRate paused = playbackRate p).
  { rewrite Hp. unfold discardSession. destruct (sourceNodeRef p); cbn; auto. }
  assert (Ho : offsetRef paused =
               Qmin (offsetRef p + e * playbackRate p) (duration p)).
  { rewrite Hp. reflexivity. }
  split; [exact Ho|].
  split; [rewrite Hp; reflexivity|].
  split; [rewrite Hp; reflexivity|].
  split; [exact Hn|].
  assert (Hl : later =
    putAudioContext paused
      (Some (mkContext (ctxCurrentTime ctx + dt) (ctxState ctx)))).
  { unfold later, advanceClock. now rewrite Hc. }
  clearbody later. unfold resumed.
  rewrite (playAudio_started later later
             (mkContext (ctxCurrentTime ctx + dt) (ctxState ctx)) buf);
    [|rewrite Hl; reflexivity|rewrite Hl; exact Hb].
  cbn. rewrite resume_currentTime. cbn.
  rewrite Hl. cbn. rewrite Hr. repeat split; reflexivity.
Qed.




(** The play button itself resumes from the stored offset as long as that
    offset is more than 0.1 s away from the duration. *)
Lemma togglePlay_resumes_away_from_end (p : Player) (startOk : bool) :
  error p = None -> isPlaying p = false ->
  0.1 < Qabs (duration p - offsetRef p) ->
  togglePlay p startOk p = playAudio p startOk p.
Proof.
  intros E NP Far. unfold togglePlay. rewrite E, NP.
  assert (F : Qltb (Qabs (duration p - offsetRef p)) 0.1 = false)
    by (apply Qltb_false; lra).
  now rewrite F.
Qed.

(** At the binary64 value of 9.9 on a 10 s buffer the difference is
    0.0999999999999996..., below one tenth: pressing play there restarts
    from 0, while a seek to that position during playback starts the
    session at it. *)
Lemma near_end_test_at_binary64_9_9 :
  let ready := run [Load "UklGRg==" Running (Some (mkBuffer 10))] initial in
  let paused := step (Seek binary64_9_9 true) ready in
  let playing := step (TogglePlay true) ready in
  9.9 < binary64_9_9
  /\ Qabs (duration paused - offsetRef paused) < 0.1
  /\ sourceNodeRef (step (TogglePlay true) paused)
     = Some (mkSource (mkBuffer 10) 1 0 false)
  /\ sourceNodeRef (step (Seek binary64_9_9 true) playing)
     = Some (mkSource (mkBuffer 10) 1 binary64_9_9 false).
Proof.
  cbv zeta. split; [|split; [|split]]; vm_compute; reflexivity.
Qed.

(** The source's own test on binary64 numbers and the test of the model
    on their exact values agree at 9.9 and at 9.8 of a 10 s buffer: the
    first is within the tolerance, the second is not. *)
Lemma near_end_test_agrees_with_binary64 :
  Binary64.exact Binary64.nine_point_nine = Some binary64_9_9
  /\ Binary64.exact Binary64.ten = Some 10
  /\ Binary64.nearEnd Binary64.ten Binary64.nine_point_nine = true
  /\ Qltb (Qabs (10 - binary64_9_9)) 0.1 = true
  /\ (exists x, Binary64.exact Binary64.nine_point_eight = Some x
       /\ Binary64.nearEnd Binary64.ten Binary64.nine_point_eight = false
       /\ Qltb (Qabs (10 - x)) 0.1 = false).
Proof.
  split; [vm_compute; reflexivity|].
  split; [vm_compute; reflexivity|].
  split; [vm_compute; reflexivity|].
  split; [vm_compute; reflexivity|].
  eexists. split; [vm_compute; reflexivity|].
  split; vm_compute; reflexivity.
Qed.

(** ** The animation frame *)

Lemma handleEnded_fields p :
  isPlaying (handleEnded p) = false
  /\ offsetRef (handleEnded p) = 0
  /\ currentTime (handleEnded p) = 0
  /\ sourceNodeRef (handleEnded p) = None
  /\ audioContextRef (handleEnded p) = audioContextRef p
  /\ audioBufferRef (handleEnded p) = audioBufferRef p
  /\ error (handleEnded p) = error p
  /\ duration (handleEnded p) = duration p
  /\ playbackRate (handleEnded p) = playbackRate p.
Proof.
  unfold handleEnded, stopAudio, discardSession.
  destruct (sourceNodeRef p) eqn:S; cbn; rewrite ?S; repeat split; reflexivity.
Qed.

Lemma updateProgress_playing p ctx :
  isPlaying p = true -> audioContextRef p = Some ctx ->
  updateProgress p p =
  if Qgeb (projected p) (duration p) then handleEnded p
  else setCurrentTime p (projected p).
Proof.
  intros P C. unfold updateProgress, projected. now rewrite P, C.
Qed.

Lemma updateProgress_at_end p ctx :
  isPlaying p = true -> audioContextRef p = Some ctx ->
  duration p <= projected p ->
  updateProgress p p = handleEnded p.
Proof.
  intros P C H. rewrite (updateProgress_playing p ctx P C).
  apply Qgeb_true in H. now rewrite H.
Qed.


(** ** C6 *)





(** ** C3 *)

(** C3, as the code has it: when a frame finds the projected time at or
    past the duration, the engine stops with the offset and the displayed
    time already back at 0 and no session; further frames change nothing;
    pressing play then starts a session at offset 0. *)
Theorem ended_resets_offset_and_replay_starts_at_zero
    (p : Player) (ctx : AudioContext) (buf : AudioBuffer) :
  isPlaying p = true ->
  error p = None ->
  audioContextRef p = Some ctx ->
  audioBufferRef p = Some buf ->
  duration p <= projected p ->
  let ended := updateProgress p p in
  let replay := togglePlay ended true ended in
  isPlaying ended = false /\ sourceNodeRef ended = None
  /\ offsetRef ended = 0 /\ currentTime ended = 0
  /\ updateProgress ended ended = ended
  /\ isPlaying replay = true
  /\ offsetRef replay = 0
  /\ sourceNodeRef replay = Some (mkSource buf (playbackRate p) 0 false).
Proof.
  intros P E C B H ended replay.
  assert (Eq : ended = handleEnded p) by apply (updateProgress_at_end p ctx P C H).
  destruct (handleEnded_fields p) as (NP & O & T & NS & C' & B' & E' & _ & R').
  rewrite <- Eq in NP, O, T, NS, C', B', E', R'.
  clearbody ended.
  split; [exact NP|]. split; [exact NS|]. split; [exact O|]. split; [exact T|].
  split; [unfold updateProgress; now rewrite NP|].
  unfold replay, togglePlay. rewrite E', E, NP, O.
  assert (Hplay : forall q, offsetRef q = 0 -> playbackRate q = playbackRate p ->
            audioContextRef q = Some ctx -> audioBufferRef q = Some buf ->
            isPlaying (playAudio ended true q) = true
            /\ offsetRef (playAudio ended true q) = 0
            /\ sourceNodeRef (playAudio ended true q) =
                 Some (mkSource buf (playbackRate p) 0 false)).
  { intros q Oq Rq Cq Bq. rewrite (playAudio_started ended q ctx buf Cq Bq).
    cbn. rewrite Oq, R'. auto. }
  destruct (Qltb _ _).
  - apply Hplay; cbn; congruence.
  - apply Hplay; congruence.
Qed.

Lemma ended_resets_offset_and_replay_starts_at_zero_witness :
  let p := run [Load "UklGRg==" Running (Some (mkBuffer 10)); TogglePlay true;
                Advance 10] initial in
  let ended := updateProgress p p in
  offsetRef ended = 0
  /\ sourceNodeRef (togglePlay ended true ended) =
       Some (mkSource (mkBuffer 10) 1 0 false).
Proof.
  cbv zeta.
  set (p := run _ initial).
  destruct (ended_resets_offset_and_replay_starts_at_zero p
              (mkContext (0 + 10) Running) (mkBuffer 10))
    as (_ & _ & O & _ & _ & _ & _ & N);
    [reflexivity|reflexivity|reflexivity|reflexivity|discriminate|].
  split; [exact O|exact N].
Defined.

(** C3 as stated fails: after the frame that ends a 10 s buffer the engine
    is stopped with offset 0, not with offset equal to the duration. *)
Lemma ended_offset_is_not_duration :
  let p := run [Load "UklGRg==" Running (Some (mkBuffer 10)); TogglePlay true;
                Advance 10; Frame] initial in
  isPlaying p = false /\ duration p = 10 /\ offsetRef p = 0
  /\ ~ offsetRef p == duration p.
Proof.
  cbv zeta. split; [|split; [|split]]; vm_compute; try reflexivity.
  discriminate.
Qed.

(** ** C7 *)

(** C7, as the code has it: when the session fails to start, the engine
    records the message "Playback failed. Please try again.", is not
    playing, and keeps the session reference it had; from then on the play
    toggle, the speed change and the seek return the state unchanged, so
    play cannot be retried until a payload is loaded again, which clears
    the error. *)
Theorem playback_start_failure_blocks_transport
    (p : Player) (ctx : AudioContext) (buf : AudioBuffer) :
  error p = None ->
  isPlaying p = false ->
  audioContextRef p = Some ctx ->
  audioBufferRef p = Some buf ->
  let q := togglePlay p false p in
  error q = Some playbackErrorMessage
  /\ isPlaying q = false
  /\ sourceNodeRef q = sourceNodeRef p
  /\ (forall ok, togglePlay q ok q = q)
  /\ (forall ok, cycleSpeed q ok q = q)
  /\ (forall t ok, handleSeek q t ok q = q)
  /\ (forall es, forallb isTransport es = true -> run es q = q)
  /\ (forall b64 st buffer, b64 <> EmptyString ->
        error (step (Load b64 st (Some buffer)) q) = None).
Proof.
  intros E NP C B q.
  assert (Hq : error q = Some playbackErrorMessage /\ isPlaying q = false
               /\ sourceNodeRef q = sourceNodeRef p).
  { unfold q, togglePlay. rewrite E, NP.
    destruct (Qltb _ _).
    - rewrite (playAudio_failed p _ ctx buf); cbn; auto.
    - rewrite (playAudio_failed p _ ctx buf); cbn; auto. }
  destruct Hq as (Eq & NPq & Sq). clearbody q.
  split; [exact Eq|]. split; [exact NPq|]. split; [exact Sq|].
  split; [intro ok; apply (transport_noop_on_error (TogglePlay ok) q _ Eq eq_refl)|].
  split; [intro ok; apply (transport_noop_on_error (CycleSpeed ok) q _ Eq eq_refl)|].
  split; [intros t ok; apply (transport_noop_on_error (Seek t ok) q _ Eq eq_refl)|].
  split; [intros es T; apply (transport_run_noop_on_error es q _ Eq T)|].
  intros b64 st buffer N. cbn [step].
  now apply initAudio_decoded_clears_error.
Qed.

Lemma playback_start_failure_blocks_transport_witness :
  let p := run [Load "UklGRg==" Running (Some (mkBuffer 10))] initial in
  let q := togglePlay p false p in
  error q = Some playbackErrorMessage /\ togglePlay q true q = q.
Proof.
  cbv zeta.
  set (p := run _ initial).
  destruct (playback_start_failure_blocks_transport p (mkContext 0 Running)
              (mkBuffer 10)) as (Eq & _ & _ & T & _);
    [reflexivity|reflexivity|reflexivity|reflexivity|].
  split; [exact Eq|apply T].
Defined.

(** C7 as stated fails: after a failed start the engine is not playing,
    but pressing play again, with a graph that would now start, leaves it
    not playing: the recorded error blocks the retry. *)
Lemma playback_start_failure_cannot_retry :
  let p := run [Load "UklGRg==" Running (Some (mkBuffer 10));
                TogglePlay false] initial in
  isPlaying p = false
  /\ error p = Some playbackErrorMessage
  /\ step (TogglePlay true) p = p
  /\ isPlaying (step (TogglePlay true) p) = false.
Proof.
  cbv zeta. split; [|split; [|split]]; vm_compute; reflexivity.
Qed.

(** ** C5 *)




(** ** The speed button *)

Lemma cycleSpeed_not_playing p rateOk :
  error p = None -> isPlaying p = false ->
  cycleSpeed p rateOk p = setPlaybackRate p (nextRate (playbackRate p)).
Proof.
  intros E NP. unfold cycleSpeed. now rewrite E, NP.
Qed.

Lemma cycleSpeed_playing p rateOk ctx node :
  error p = None -> isPlaying p = true ->
  audioContextRef p = Some ctx -> sourceNodeRef p = Some node ->
  cycleSpeed p rateOk p =
  setPlaybackRate
    (putSourceNode
       (putStartTime
          (putOffset p
             (offsetRef p
              + (ctxCurrentTime ctx - startTimeRef p) * playbackRate p))
          (ctxCurrentTime ctx))
       (Some (if rateOk then setNodeRate node (nextRate (playbackRate p))
              else node)))
    (nextRate (playbackRate p)).
Proof.
  intros E P C S. unfold cycleSpeed. rewrite E, P, C, S.
  destruct rateOk; [reflexivity|].
  unfold setPlaybackRate, putSourceNode. cbn -[nextRate].
  rewrite S. reflexivity.
Qed.

(** ** C4 *)

(** C4, as the code has it: the speed button takes no rate; it moves the
    rate to the next one of 0.75, 1, 1.25.  While playing with a live
    session whose projected time has not passed the duration, it stores
    min(offset + elapsed * rate, duration) as the offset, sets the start
    time to the current clock reading, and sets the rate of the same
    session in place: the session keeps its start offset and is not
    stopped.  The offset does not go down, the displayed time is not
    touched, and the projected position right after the change equals the
    one right before.  While not playing only the rate changes. *)
Theorem cycleSpeed_bakes_elapsed_in_place (p : Player) (rateOk : bool) :
  error p = None ->
  let q := cycleSpeed p rateOk p in
  let newRate := nextRate (playbackRate p) in
  playbackRate q = newRate
  /\ In newRate speeds
  /\ (isPlaying p = false -> q = setPlaybackRate p newRate)
  /\ (isPlaying p = true ->
      forall ctx node,
        audioContextRef p = Some ctx -> sourceNodeRef p = Some node ->
        let baked :=
          offsetRef p + (ctxCurrentTime ctx - startTimeRef p) * playbackRate p in
        baked <= duration p ->
        offsetRef q == Qmin baked (duration p)
        /\ (startTimeRef p <= ctxCurrentTime ctx -> 0 <= playbackRate p ->
              offsetRef p <= offsetRef q)
        /\ startTimeRef q = ctxCurrentTime ctx
        /\ sourceNodeRef q =
             Some (if rateOk then setNodeRate node newRate else node)
        /\ isPlaying q = true
        /\ currentTime q = currentTime p
        /\ projected q == projected p).
Proof.
  intros E q newRate.
  split. { unfold q, cycleSpeed. rewrite E. reflexivity. }
  split; [apply nextRate_in_speeds|].
  split; [intro NP; apply (cycleSpeed_not_playing p rateOk E NP)|].
  intros P ctx node C S baked Hb.
  unfold q. rewrite (cycleSpeed_playing p rateOk ctx node E P C S).
  fold baked. cbn.
  split; [symmetry; now apply Q.min_l|].
  split.
  { intros Hclock Hrate. unfold baked.
    assert (0 <= (ctxCurrentTime ctx - startTimeRef p) * playbackRate p).
    { apply Qmult_le_0_compat; [lra|exact Hrate]. }
    lra. }
  split; [reflexivity|]. split; [reflexivity|].
  split; [exact P|]. split; [reflexivity|].
  unfold projected. cbn. rewrite C. fold baked. ring.
Qed.

(** Play a 10 s buffer at rate 1; after 2 s press the speed button. *)
Lemma cycleSpeed_bakes_elapsed_in_place_witness :
  let p0 := run [Load "UklGRg==" Running (Some (mkBuffer 10))] initial in
  let p := run [TogglePlay true; Advance 2] p0 in
  let q := cycleSpeed p true p in
  cycleSpeed p0 true p0 = setPlaybackRate p0 1.25
  /\ playbackRate q = 1.25 /\ offsetRef q == 2 /\ startTimeRef q == 2
  /\ sourceNodeRef q = Some (mkSource (mkBuffer 10) 1.25 0 false).
Proof.
  cbv zeta.
  set (p0 := run _ initial).
  set (p := run _ p0).
  destruct (cycleSpeed_bakes_elapsed_in_place p0 true) as (_ & _ & I & _);
    [reflexivity|].
  destruct (cycleSpeed_bakes_elapsed_in_place p true) as (R & _ & _ & S);
    [reflexivity|].
  destruct (S eq_refl (mkContext (0 + 2) Running)
              (mkSource (mkBuffer 10) 1 0 false))
    as (O & _ & T & N & _); [reflexivity|reflexivity|discriminate|].
  split; [exact (I eq_refl)|].
  split; [exact R|]. split; [rewrite O; vm_compute; reflexivity|].
  split; [rewrite T; vm_compute; reflexivity|exact N].
Defined.

(** C4 as stated fails, in the scenario [playedPastEnd]: the engine is
    playing at rate 1 and the projected time is 10.01 of 10 s.  Pressing the
    speed button can only set the rate 1.25, the next of the cycle, whatever
    rate one would want; and it stores 10.01 as the offset, not
    min(10.01, 10). *)
Lemma cycleSpeed_does_not_cap_offset :
  let p := run playedPastEnd initial in
  let q := cycleSpeed p true p in
  isPlaying p = true
  /\ playbackRate p = 1 /\ playbackRate q = 1.25
  /\ offsetRef q == 10.01
  /\ Qmin (projected p) (duration p) == 10
  /\ ~ offsetRef q == Qmin (projected p) (duration p).
Proof.
  cbv zeta. split; [|split; [|split; [|split; [|split]]]];
    vm_compute; try reflexivity.
  discriminate.
Qed.

(** ** Reachable states and the bounds of the offset *)

Lemma wellFormed_initial : wellFormed initial.
Proof.
  unfold wellFormed, clockOk. cbn. repeat split; try lra; discriminate.
Qed.

Lemma wellFormed_step (e : Event) (p : Player) :
  wellFormed p -> enabled e p -> wellFormed (step e p).
Proof.
  intros (D & O & R & K) En.
  destruct p as [pl ld er d ct r ac ab sn st off].
  unfold clockOk in *. cbn in D, O, R, K.
  destruct e as [b64 cs decoded|dt| |ok|ok|t ok]; cbn in En.
  - unfold wellFormed, clockOk, step, initAudio, cleanup, stopAudio,
      discardSession.
    cbn. destruct (String.eqb b64 ""), sn, ac as [[? []]|], decoded; cbn;
      repeat split; try lra; try discriminate; auto.
  - unfold wellFormed, clockOk, step, advanceClock. cbn.
    destruct ac as [ctx|]; cbn; repeat split; try lra; auto.
    intro P. destruct (K P) as (c & [= <-] & L).
    eexists; split; [reflexivity|]. cbn. lra.
  - unfold wellFormed, clockOk, step, updateProgress, handleEnded, stopAudio,
      discardSession. cbn.
    destruct pl; [|repeat split; auto].
    destruct ac as [ctx|]; [|repeat split; auto].
    destruct (Qgeb _ _);
      [destruct sn; cbn; repeat split; try lra; discriminate|].
    cbn. repeat split; auto.
  - unfold wellFormed, clockOk, step, togglePlay, pauseAudio, playAudio,
      discardSession. cbn.
    destruct er; [repeat split; auto|].
    destruct pl.
    + destruct (K eq_refl) as (c & [= ->] & L).
      assert (0 <= (ctxCurrentTime c - st) * r)
        by (apply Qmult_le_0_compat; lra).
      destruct sn; cbn; repeat split; try lra; try discriminate;
        apply Q.min_glb; lra.
    + destruct (Qltb _ _), ac as [c|], ab, ok; cbn; repeat split; try lra;
        try discriminate; auto;
        intros _; eexists; (split; [reflexivity|]);
        rewrite resume_currentTime; lra.
  - unfold wellFormed, clockOk, step, cycleSpeed. cbn -[nextRate].
    pose proof (speeds_positive _ (nextRate_in_speeds r)) as NR.
    destruct er; [repeat split; auto|].
    destruct pl; [|repeat split; auto].
    destruct (K eq_refl) as (c & [= ->] & L).
    assert (0 <= (ctxCurrentTime c - st) * r)
      by (apply Qmult_le_0_compat; lra).
    destruct sn, ok; cbn -[nextRate]; repeat split; try lra; auto;
      intros _; eexists; (split; [reflexivity|]); lra.
  - destruct En as (_ & _ & T0 & T1).
    unfold wellFormed, clockOk, step, handleSeek, playAudio. cbn.
    destruct er; [repeat split; auto|].
    destruct pl; [|repeat split; auto; discriminate].
    destruct (K eq_refl) as (c & [= ->] & L).
    destruct sn, ab, ok; cbn; repeat split; try lra; try discriminate; auto;
      intros _; eexists; (split; [reflexivity|]);
      rewrite ?resume_currentTime; lra.
Qed.

Lemma reachable_wellFormed (p : Player) : reachable p -> wellFormed p.
Proof.
  induction 1 as [|e p R IH En];
    [apply wellFormed_initial|now apply wellFormed_step].
Qed.

(** The lower half of the bound holds in every reachable state. *)
Lemma offset_nonneg (p : Player) : reachable p -> 0 <= offsetRef p.
Proof. intro R. apply (reachable_wellFormed p R). Qed.

(** The upper half of the bound is kept by every event, a speed change
    included when it is timely. *)
Lemma offset_le_duration_step (e : Event) (p : Player) :
  wellFormed p -> enabled e p -> timely e p ->
  offsetRef p <= duration p ->
  offsetRef (step e p) <= duration (step e p).
Proof.
  intros (D & O & R & K) En Ti U.
  destruct p as [pl ld er d ct r ac ab sn st off].
  unfold clockOk in *. cbn in D, O, R, K, U.
  destruct e as [b64 cs decoded|dt| |ok|ok|t ok]; cbn in En, Ti.
  - unfold step, initAudio, cleanup, stopAudio, discardSession.
    cbn. destruct (String.eqb b64 ""), sn, ac as [[? []]|], decoded; cbn;
      lra.
  - unfold step, advanceClock. cbn. destruct ac; cbn; lra.
  - unfold step, updateProgress, handleEnded, stopAudio, discardSession. cbn.
    destruct pl; [|exact U]. destruct ac as [ctx|]; [|exact U].
    destruct (Qgeb _ _); [destruct sn; cbn; lra|exact U].
  - unfold step, togglePlay, pauseAudio, playAudio, discardSession. cbn.
    destruct er; [exact U|].
    destruct pl.
    + destruct (K eq_refl) as (c & [= ->] & L).
      destruct sn; cbn; apply Q.le_min_r.
    + destruct (Qltb _ _), ac as [c|], ab, ok; cbn; lra.
  - unfold step, cycleSpeed. cbn -[nextRate].
    destruct er; [exact U|].
    destruct pl; [|exact U].
    destruct (K eq_refl) as (c & [= ->] & L).
    specialize (Ti eq_refl). unfold projected in Ti. cbn in Ti.
    destruct sn, ok; cbn -[nextRate]; lra.
  - destruct En as (_ & _ & T0 & T1).
    unfold step, handleSeek, playAudio. cbn.
    destruct er; [exact U|].
    destruct pl; [|exact T1].
    destruct (K eq_refl) as (c & [= ->] & L).
    destruct sn, ab, ok; cbn; lra.
Qed.

Lemma offset_bounds_on_timely_traces (es : list Event) (p : Player) :
  wellFormed p -> offsetRef p <= duration p -> timelyAll es p ->
  0 <= offsetRef (run es p) <= duration (run es p).
Proof.
  revert p. induction es as [|e es IH]; intros p W U T.
  - split; [apply W|exact U].
  - destruct T as (En & Ti & Ts). unfold run. cbn [fold_left].
    apply IH; [now apply wellFormed_step| |exact Ts].
    now apply offset_le_duration_step.
Qed.

(** Reaching the duration while playing: the next frame stops the engine
    and resets it. *)
Lemma frame_at_duration_stops (p : Player) :
  reachable p -> isPlaying p = true -> duration p <= projected p ->
  isPlaying (step Frame p) = false /\ offsetRef (step Frame p) = 0.
Proof.
  intros Re P H.
  destruct (reachable_wellFormed p Re) as (_ & _ & _ & K).
  destruct (K P) as (ctx & C & _). cbn [step].
  rewrite (updateProgress_at_end p ctx P C H).
  destruct (handleEnded_fields p) as (A & B & _). auto.
Qed.

(** ** C2 *)

(** C2 fails on the code.  In the scenario [playedPastEnd], pressing the
    speed button at clock reading 10.01, in the gap between two frames,
    gives a reachable state in which the engine is still playing and the
    stored offset is 10.01, above the duration of 10: [cycleSpeed] adds the
    elapsed time without the [Math.min(..., duration)] that [pauseAudio]
    applies.  The next frame then stops the engine and resets the offset
    to 0. *)
Theorem cycleSpeed_can_push_offset_past_duration :
  let es := playedPastEnd ++ [CycleSpeed true] in
  let p := run es initial in
  enabledAll es initial
  /\ reachable p
  /\ isPlaying p = true
  /\ duration p == 10
  /\ offsetRef p == 10.01
  /\ ~ offsetRef p <= duration p
  /\ offsetRef (step Frame p) == 0.
Proof.
  cbv zeta.
  assert (En : enabledAll (playedPastEnd ++ [CycleSpeed true]) initial).
  { cbn [playedPastEnd app enabledAll]. repeat split; vm_compute; discriminate. }
  split; [exact En|].
  split; [apply reachable_run; [constructor|exact En]|].
  split; [|split; [|split; [|split]]]; vm_compute; try reflexivity.
  intro H. apply H. reflexivity.
Qed.

(** * More of the player *)

(** ** Invariants of the reachable states *)

Lemma displayOk_step (e : Event) (p : Player) :
  wellFormed p -> enabled e p -> displayOk p -> displayOk (step e p).
Proof.
  intros (D & O & R & K) En [L U].
  destruct p as [pl ld er d ct r ac ab sn st off].
  unfold clockOk, displayOk in *. cbn in D, O, R, K, L, U.
  destruct e as [b64 cs decoded|dt| |ok|ok|t ok]; cbn in En.
  - unfold step, initAudio, cleanup, stopAudio, discardSession.
    cbn. destruct (String.eqb b64 ""), sn, ac as [[? []]|], decoded; cbn;
      split; lra.
  - unfold step, advanceClock. cbn. destruct ac; cbn; split; lra.
  - unfold step, updateProgress, handleEnded, stopAudio, discardSession. cbn.
    destruct pl; [|split; assumption].
    destruct ac as [ctx|] eqn:C; [|split; assumption].
    destruct (K eq_refl) as (c & [= <-] & Lc).
    assert (0 <= (ctxCurrentTime ctx - st) * r)
      by (apply Qmult_le_0_compat; lra).
    destruct (Qgeb _ _) eqn:G; [destruct sn; cbn; split; lra|].
    apply Qgeb_false in G. cbn. split; lra.
  - unfold step, togglePlay, pauseAudio, playAudio, discardSession. cbn.
    destruct er; [split; assumption|].
    destruct pl.
    + destruct (K eq_refl) as (c & [= ->] & Lc).
      assert (0 <= (ctxCurrentTime c - st) * r)
        by (apply Qmult_le_0_compat; lra).
      destruct sn; cbn; (split; [apply Q.min_glb; lra|apply Q.le_min_r]).
    + destruct (Qltb _ _), ac as [c|], ab, ok; cbn; split; lra.
  - unfold step, cycleSpeed. cbn -[nextRate].
    destruct er; [split; assumption|].
    destruct pl; [|split; assumption].
    destruct ac as [c|]; [|split; assumption].
    destruct sn, ok; cbn -[nextRate]; split; assumption.
  - destruct En as (_ & _ & T0 & T1).
    unfold step, handleSeek, playAudio. cbn.
    destruct er; [split; assumption|].
    destruct pl; [|split; assumption].
    destruct sn, ac, ab, ok; cbn; split; assumption.
Qed.

Lemma sessionOk_step (e : Event) (p : Player) :
  wellFormed p -> sessionOk p -> sessionOk (step e p).
Proof.
  intros (_ & _ & _ & K) [Lv S].
  destruct p as [pl ld er d ct r ac ab sn st off].
  unfold clockOk, sessionOk, liveSession in *. cbn in K, Lv, S.
  destruct e as [b64 cs decoded|dt| |ok|ok|t ok].
  - unfold step, initAudio, cleanup, stopAudio, discardSession.
    cbn. destruct (String.eqb b64 ""), sn, ac as [[? []]|], decoded; cbn;
      split; try reflexivity; discriminate.
  - unfold step, advanceClock. cbn. destruct ac; cbn; split; assumption.
  - unfold step, updateProgress, handleEnded, stopAudio, discardSession. cbn.
    destruct pl; [|split; assumption].
    destruct ac as [ctx|]; [|split; assumption].
    destruct (Qgeb _ _);
      [destruct sn; cbn; split; try reflexivity; discriminate|].
    cbn. split; assumption.
  - unfold step, togglePlay, pauseAudio, playAudio, discardSession. cbn.
    destruct er; [split; assumption|].
    destruct pl.
    + destruct (K eq_refl) as (c & [= ->] & Lc).
      destruct sn; cbn; split; try reflexivity; discriminate.
    + destruct (Qltb _ _), ac as [c|], ab, ok; cbn; split; try assumption;
        try reflexivity; try discriminate;
        intros _; (split; [reflexivity|]); eexists; eexists; repeat split.
  - unfold step, cycleSpeed. cbn -[nextRate].
    destruct er; [split; assumption|].
    destruct pl; [|split; assumption].
    destruct (S eq_refl) as (_ & buf & n & -> & -> & Hb).
    destruct (K eq_refl) as (c & [= ->] & _).
    cbn in Lv.
    destruct ok; cbn -[nextRate]; (split; [assumption|]); intros _;
      (split; [reflexivity|]); eexists; eexists; repeat split; assumption.
  - unfold step, handleSeek, playAudio. cbn.
    destruct er; [split; assumption|].
    destruct pl; [|split; assumption].
    destruct (K eq_refl) as (c & [= ->] & Lc).
    destruct (S eq_refl) as (_ & buf & n & -> & -> & Hb).
    destruct ok; cbn; split; try reflexivity; try discriminate.
    intros _. split; [reflexivity|]. eexists; eexists; repeat split.
Qed.

Lemma durationOk_step (e : Event) (p : Player) :
  durationOk p -> durationOk (step e p).
Proof.
  intros Dk.
  destruct p as [pl ld er d ct r ac ab sn st off].
  unfold durationOk in *. cbn in Dk.
  destruct e as [b64 cs decoded|dt| |ok|ok|t ok].
  - unfold step, initAudio, cleanup, stopAudio, discardSession.
    cbn. destruct (String.eqb b64 ""), sn, ac as [[? []]|], decoded; cbn;
      auto.
  - unfold step, advanceClock. cbn. destruct ac; cbn; auto.
  - unfold step, updateProgress, handleEnded, stopAudio, discardSession. cbn.
    destruct pl; [|assumption]. destruct ac as [ctx|]; [|assumption].
    destruct (Qgeb _ _); [destruct sn; cbn; auto|]. cbn. auto.
  - unfold step, togglePlay, pauseAudio, playAudio, discardSession. cbn.
    destruct er; [assumption|].
    destruct pl.
    + destruct sn, ac; cbn; auto.
    + destruct (Qltb _ _), ac as [c|], ab, ok; cbn; auto.
  - unfold step, cycleSpeed. cbn -[nextRate].
    destruct er; [assumption|].
    destruct pl, ac, sn, ok; cbn -[nextRate]; auto.
  - unfold step, handleSeek, playAudio. cbn.
    destruct er; [assumption|].
    destruct pl; [|assumption].
    destruct sn, ac, ab, ok; cbn; auto.
Qed.

(** Everything that holds of a reachable state, in one induction. *)
Lemma reachable_invariants (p : Player) :
  reachable p -> wellFormed p /\ displayOk p /\ sessionOk p /\ durationOk p.
Proof.
  induction 1 as [|e p R (W & Dp & S & Du) En].
  - split; [apply wellFormed_initial|].
    unfold displayOk, sessionOk, durationOk, liveSession. cbn.
    repeat split; try lra; discriminate.
  - split; [now apply wellFormed_step|].
    split; [now apply displayOk_step|].
    split; [now apply sessionOk_step|now apply durationOk_step].
Qed.

(** The displayed time never leaves the track: in every reachable state
    0 <= currentTime <= duration. *)
Theorem currentTime_within_duration (p : Player) :
  reachable p -> 0 <= currentTime p <= duration p.
Proof.
  intro R. destruct (reachable_invariants p R) as (_ & D & _). exact D.
Qed.

Lemma currentTime_within_duration_witness :
  let p := run (playedPastEnd ++ [CycleSpeed true]) initial in
  duration p < offsetRef p /\ 0 <= currentTime p <= duration p.
Proof.
  cbv zeta.
  set (p := run _ initial).
  split; [reflexivity|].
  apply (currentTime_within_duration p).
  apply reachable_run; [constructor|].
  cbn [playedPastEnd app enabledAll]. repeat split; vm_compute; discriminate.
Defined.

(** The session follows the playing flag: in every reachable state the
    session reference holds a node that was not stopped exactly when the
    engine is playing, and that node plays the loaded buffer. *)
Theorem session_live_iff_playing (p : Player) :
  reachable p ->
  liveSession p = isPlaying p
  /\ (isPlaying p = true ->
      exists buf n,
        audioBufferRef p = Some buf /\ sourceNodeRef p = Some n
        /\ nodeStopped n = false /\ nodeBuffer n = buf).
Proof.
  intro R. destruct (reachable_invariants p R) as (_ & _ & [Lv S] & _).
  split; [exact Lv|]. intro P.
  destruct (S P) as (_ & buf & n & B & N & Hb).
  exists buf, n. repeat split; try assumption.
  unfold liveSession in Lv. rewrite N, P in Lv.
  now apply negb_true_iff in Lv.
Qed.

Lemma session_live_iff_playing_witness :
  let p := run [Load "UklGRg==" Running (Some (mkBuffer 10)); TogglePlay true;
                Advance 2; Seek 7 false] initial in
  isPlaying p = false /\ liveSession p = false
  /\ sourceNodeRef p = Some (mkSource (mkBuffer 10) 1 0 true).
Proof.
  cbv zeta.
  set (p := run _ initial).
  assert (R : reachable p).
  { apply reachable_run; [constructor|].
    cbn [enabledAll]. repeat split; vm_compute; discriminate. }
  destruct (session_live_iff_playing p R) as [Lv _].
  split; [reflexivity|]. split; [rewrite Lv; reflexivity|reflexivity].
Defined.

(** The engine never plays with an error on display: in every reachable
    state that is playing, no error is recorded and the context and the
    buffer are there. *)
Theorem playing_implies_no_error (p : Player) :
  reachable p -> isPlaying p = true ->
  error p = None
  /\ (exists ctx, audioContextRef p = Some ctx)
  /\ (exists buf, audioBufferRef p = Some buf).
Proof.
  intros R P.
  destruct (reachable_invariants p R) as ((_ & _ & _ & K) & _ & [_ S] & _).
  destruct (S P) as (E & buf & n & B & _).
  destruct (K P) as (ctx & C & _).
  split; [exact E|]. split; [exists ctx; exact C|exists buf; exact B].
Qed.

Lemma playing_implies_no_error_witness :
  let p := run [Load "UklGRg==" Running (Some (mkBuffer 10)); TogglePlay true;
                Advance 2; CycleSpeed false; Seek 7 true] initial in
  isPlaying p = true /\ error p = None.
Proof.
  cbv zeta.
  set (p := run _ initial).
  assert (R : reachable p).
  { apply reachable_run; [constructor|].
    cbn [enabledAll]. repeat split; vm_compute; discriminate. }
  split; [reflexivity|].
  apply (playing_implies_no_error p R). reflexivity.
Defined.

(** The duration on display is the duration of the loaded buffer, and 0
    while no buffer was decoded, in every reachable state: a failed load
    keeps the previous buffer and its duration together. *)
Theorem duration_is_buffer_duration (p : Player) :
  reachable p ->
  duration p =
  match audioBufferRef p with
  | Some b => bufDuration b
  | None => 0
  end.
Proof.
  intro R. destruct (reachable_invariants p R) as (_ & _ & _ & D). exact D.
Qed.

Lemma duration_is_buffer_duration_witness :
  let p := run [Load "UklGRg==" Running (Some (mkBuffer 10));
                Load "AAAA" Running None] initial in
  audioBufferRef p = Some (mkBuffer 10) /\ duration p = 10.
Proof.
  cbv zeta.
  set (p := run _ initial).
  assert (R : reachable p).
  { apply reachable_run; [constructor|].
    cbn [enabledAll]. repeat split; vm_compute; discriminate. }
  pose proof (duration_is_buffer_duration p R) as D.
  split; [reflexivity|]. rewrite D. reflexivity.
Defined.

(** ** How the operations compose *)

(** A reachable playing state, spelled out. *)
Lemma playing_shape (p : Player) :
  reachable p -> isPlaying p = true ->
  exists ld d ct r ctx buf n st off,
    p = mkPlayer true ld None d ct r (Some ctx) (Some buf) (Some n) st off
    /\ nodeStopped n = false /\ nodeBuffer n = buf
    /\ st <= ctxCurrentTime ctx /\ 0 < r /\ 0 <= off /\ 0 <= d.
Proof.
  intros R P.
  destruct (reachable_invariants p R) as ((D & O & Rr & K) & _ & [Lv S] & _).
  destruct (S P) as (E & buf & n & B & N & Hb).
  destruct (K P) as (ctx & C & Lc).
  unfold liveSession in Lv. rewrite N, P in Lv. apply negb_true_iff in Lv.
  destruct p as [pl ld er d ct r ac ab sn st off]. cbn in *. subst.
  exists ld, d, ct, r, ctx, (nodeBuffer n), n, st, off.
  repeat split; assumption.
Qed.

Lemma Qmin_add_cap (x y d : Q) :
  0 <= y -> Qmin (Qmin x d + y) d == Qmin (x + y) d.
Proof.
  intro Hy.
  destruct (Q.min_spec x d) as [[H1 E1]|[H1 E1]]; rewrite E1.
  - reflexivity.
  - rewrite (Q.min_r (d + y) d) by lra.
    rewrite (Q.min_r (x + y) d) by lra. reflexivity.
Qed.

(** A pause in the middle neither loses nor double-counts time.  From a
    reachable playing state: playing for [a], pausing, waiting [gap],
    resuming and playing for [b] more, then pausing, leaves the same offset
    and the same displayed time as playing for [a + b] and pausing once,
    as long as the first pause landed more than 0.1 s away from the
    duration (within 0.1 s the play button restarts from 0; at exactly 0.1
    the source decides on the rounded binary64 difference). *)
Theorem pause_resume_adds_up (p : Player) (a gap b : Q) :
  reachable p -> isPlaying p = true -> 0 <= b ->
  let paused := run [Advance a; TogglePlay true] p in
  0.1 < Qabs (duration p - offsetRef paused) ->
  let resumed :=
    run [Advance gap; TogglePlay true; Advance b; TogglePlay true] paused in
  let straight := run [Advance (a + b); TogglePlay true] p in
  isPlaying resumed = false
  /\ offsetRef resumed == offsetRef straight
  /\ currentTime resumed == currentTime straight.
Proof.
  intros R P Hb.
  destruct (playing_shape p R P)
    as (ld & d & ct & r & ctx & buf & n & st & off & -> & Hs & Hbuf & Hc & Hr
        & Ho & Hd).
  cbn [duration]. rewrite !run_cons, !run_nil.
  rewrite !advance_state, !pause_state. cbv zeta.
  cbn [offsetRef]. intro Far. apply Qlt_le_weak, Qltb_false in Far.
  rewrite advance_state, (play_state _ _ _ _ _ _ _ _ _ Far).
  rewrite advance_state, pause_state. cbv zeta.
  rewrite !resume_currentTime.
  cbn [isPlaying offsetRef currentTime ctxCurrentTime].
  assert (0 <= b * r) by (apply Qmult_le_0_compat; lra).
  split; [reflexivity|].
  assert (E : Qmin (Qmin (off + (ctxCurrentTime ctx + a - st) * r) d
                    + (ctxCurrentTime ctx + a + gap + b
                       - (ctxCurrentTime ctx + a + gap)) * r) d
              == Qmin (off + (ctxCurrentTime ctx + (a + b) - st) * r) d).
  { setoid_replace ((ctxCurrentTime ctx + a + gap + b
                     - (ctxCurrentTime ctx + a + gap)) * r)
      with (b * r) by ring.
    rewrite Qmin_add_cap by assumption.
    apply Q.min_compat; [ring|reflexivity]. }
  split; exact E.
Qed.

(** 2 s, a pause of 5 s, 3 s more: the offset is 5, as after 5 s in one
    go. *)
Lemma pause_resume_adds_up_witness :
  let p := run [Load "UklGRg==" Running (Some (mkBuffer 10)); TogglePlay true]
               initial in
  let paused := run [Advance 2; TogglePlay true] p in
  let resumed :=
    run [Advance 5; TogglePlay true; Advance 3; TogglePlay true] paused in
  offsetRef resumed == offsetRef (run [Advance (2 + 3); TogglePlay true] p)
  /\ offsetRef resumed == 5.
Proof.
  cbv zeta.
  set (p := run _ initial).
  assert (R : reachable p).
  { apply reachable_run; [constructor|].
    cbn [enabledAll]. repeat split; vm_compute; discriminate. }
  destruct (pause_resume_adds_up p 2 5 3 R) as (_ & O & _);
    [reflexivity|discriminate|reflexivity|].
  split; [exact O|]. vm_compute. reflexivity.
Defined.

(** Dragging the slider while playing is pausing, dragging, then playing:
    from a reachable playing state, a seek whose new session starts gives
    the very state that pause, seek and play give one after the other, for
    any target more than 0.1 s away from the duration (nearer than 0.1 s
    the play button would restart from 0 where the seek does not). *)
Theorem seek_while_playing_is_pause_seek_play (p : Player) (t : Q) :
  reachable p -> isPlaying p = true ->
  0.1 < Qabs (duration p - t) ->
  step (Seek t true) p
  = run [TogglePlay true; Seek t true; TogglePlay true] p.
Proof.
  intros R P Far.
  destruct (playing_shape p R P)
    as (ld & d & ct & r & ctx & buf & n & st & off & -> & Hs & Hbuf & Hc & Hr
        & Ho & Hd).
  cbn [duration] in Far. apply Qlt_le_weak, Qltb_false in Far.
  rewrite !run_cons, run_nil.
  rewrite seek_playing_state, pause_state. cbv zeta.
  rewrite seek_paused_state, (play_state _ _ _ _ _ _ _ _ _ Far).
  reflexivity.
Qed.

Lemma seek_while_playing_is_pause_seek_play_witness :
  let p := run [Load "UklGRg==" Running (Some (mkBuffer 10)); TogglePlay true;
                Advance 2] initial in
  step (Seek 7 true) p = run [TogglePlay true; Seek 7 true; TogglePlay true] p
  /\ offsetRef (step (Seek 7 true) p) = 7.
Proof.
  cbv zeta.
  set (p := run _ initial).
  assert (R : reachable p).
  { apply reachable_run; [constructor|].
    cbn [enabledAll]. repeat split; vm_compute; discriminate. }
  split; [|reflexivity].
  apply (seek_while_playing_is_pause_seek_play p 7 R); reflexivity.
Defined.

Lemma reachable_rate (p : Player) : reachable p -> In (playbackRate p) speeds.
Proof.
  induction 1 as [|e p R IH En]; [cbn; tauto|].
  rewrite step_playbackRate. destruct e, (error p); auto.
  all: apply nextRate_in_speeds.
Qed.

Lemma nextRate_period (r : Q) :
  In r speeds -> nextRate (nextRate (nextRate r)) = r.
Proof.
  unfold speeds. cbn [In]. intros [<-|[<-|[<-|[]]]]; reflexivity.
Qed.

Lemma cycleSpeed_error c ok p : error (cycleSpeed c ok p) = error p.
Proof.
  unfold cycleSpeed.
  destruct (error c), (isPlaying c), (audioContextRef p), (sourceNodeRef p),
    ok; reflexivity.
Qed.

(** Three presses of the speed button bring the rate back: from a
    reachable state with no error the rate after three presses is the rate
    before, and when the engine is not playing the whole state is. *)
Theorem cycleSpeed_three_times (p : Player) (a b c : bool) :
  reachable p -> error p = None ->
  let q := run [CycleSpeed a; CycleSpeed b; CycleSpeed c] p in
  playbackRate q = playbackRate p
  /\ (isPlaying p = false -> q = p).
Proof.
  intros R E q.
  pose proof (reachable_rate p R) as HR.
  assert (E1 : error (step (CycleSpeed a) p) = None)
    by (cbn [step]; now rewrite cycleSpeed_error).
  assert (E2 : error (step (CycleSpeed b) (step (CycleSpeed a) p)) = None)
    by (cbn [step] in *; now rewrite cycleSpeed_error).
  split.
  - unfold q, run. cbn [fold_left].
    rewrite !step_playbackRate, E, E1, E2. now apply nextRate_period.
  - intro NP. unfold q, run. cbn [fold_left step].
    rewrite (cycleSpeed_not_playing p a E NP).
    rewrite (cycleSpeed_not_playing (setPlaybackRate p _) b E NP).
    rewrite (cycleSpeed_not_playing
               (setPlaybackRate (setPlaybackRate p _) _) c E NP).
    cbn -[nextRate]. rewrite (nextRate_period _ HR).
    destruct p; reflexivity.
Qed.

Lemma cycleSpeed_three_times_witness :
  let p := run [Load "UklGRg==" Running (Some (mkBuffer 10)); CycleSpeed true]
               initial in
  playbackRate p = 1.25
  /\ run [CycleSpeed true; CycleSpeed true; CycleSpeed true] p = p.
Proof.
  cbv zeta.
  set (p := run _ initial).
  assert (R : reachable p).
  { apply reachable_run; [constructor|].
    cbn [enabledAll]. repeat split; vm_compute; discriminate. }
  destruct (cycleSpeed_three_times p true true true R) as [_ H];
    [reflexivity|].
  split; [reflexivity|apply H; reflexivity].
Defined.

(** The progress display runs at the playback rate: from a reachable
    playing state, a frame shows the projected position, and a frame [dt]
    later shows [dt * rate] more, as long as that is still short of the
    duration. *)
Theorem frames_advance_at_playback_rate (p : Player) (dt : Q) :
  reachable p -> isPlaying p = true -> 0 <= dt ->
  projected p + dt * playbackRate p < duration p ->
  let shown := step Frame p in
  let later := run [Advance dt; Frame] shown in
  isPlaying later = true
  /\ currentTime shown == projected p
  /\ currentTime later == currentTime shown + dt * playbackRate p.
Proof.
  intros R P Hdt.
  destruct (playing_shape p R P)
    as (ld & d & ct & r & ctx & buf & n & st & off & -> & Hs & Hbuf & Hc & Hr
        & Ho & Hd).
  unfold projected. cbn. intros Below.
  assert (0 <= dt * r) by (apply Qmult_le_0_compat; lra).
  assert (G1 : Qgeb (off + (ctxCurrentTime ctx - st) * r) d = false)
    by (apply Qgeb_false; lra).
  rewrite G1. cbn.
  assert (G2 : Qgeb (off + (ctxCurrentTime ctx + dt - st) * r) d = false)
    by (apply Qgeb_false; lra).
  rewrite G2. cbn.
  split; [reflexivity|]. split; [reflexivity|ring].
Qed.

(** At rate 1.25, 2 s into a 10 s buffer, 4 s of clock time move the
    display by 5 s. *)
Lemma frames_advance_at_playback_rate_witness :
  let p := run [Load "UklGRg==" Running (Some (mkBuffer 10)); CycleSpeed true;
                TogglePlay true; Advance 1.6] initial in
  currentTime (step Frame p) == 2
  /\ currentTime (run [Frame; Advance 4; Frame] p) == 7.
Proof.
  cbv zeta.
  set (p := run _ initial).
  assert (R : reachable p).
  { apply reachable_run; [constructor|].
    cbn [enabledAll]. repeat split; vm_compute; discriminate. }
  destruct (frames_advance_at_playback_rate p 4 R) as (_ & A & B);
    [reflexivity|discriminate|reflexivity|].
  split; [rewrite A; vm_compute; reflexivity|].
  change (run [Frame; Advance 4; Frame] p)
    with (run [Advance 4; Frame] (step Frame p)).
  rewrite B, A. vm_compute. reflexivity.
Defined.

(** After a speed change the position goes on from where it was, at the
    new rate: from a reachable playing state whose projected time has not
    passed the duration, [dt] seconds after the press the projected
    position is the one before the press plus [dt] times the new rate. *)
Theorem position_continues_after_speed_change
    (p : Player) (rateOk : bool) (dt : Q) :
  reachable p -> isPlaying p = true ->
  projected p <= duration p ->
  let q := step (Advance dt) (step (CycleSpeed rateOk) p) in
  isPlaying q = true
  /\ playbackRate q = nextRate (playbackRate p)
  /\ projected q == projected p + dt * nextRate (playbackRate p).
Proof.
  intros R P.
  destruct (playing_shape p R P)
    as (ld & d & ct & r & ctx & buf & n & st & off & -> & Hs & Hbuf & Hc & Hr
        & Ho & Hd).
  unfold projected. cbn -[nextRate]. intros _.
  destruct rateOk; cbn -[nextRate];
    (split; [reflexivity|split; [reflexivity|ring]]).
Qed.

Lemma position_continues_after_speed_change_witness :
  let p := run [Load "UklGRg==" Running (Some (mkBuffer 10)); TogglePlay true;
                Advance 2] initial in
  projected p == 2
  /\ projected (step (Advance 4) (step (CycleSpeed true) p)) == 7.
Proof.
  cbv zeta.
  set (p := run _ initial).
  assert (R : reachable p).
  { apply reachable_run; [constructor|].
    cbn [enabledAll]. repeat split; vm_compute; discriminate. }
  destruct (position_continues_after_speed_change p true 4 R) as (_ & _ & A);
    [reflexivity|discriminate|].
  split; [vm_compute; reflexivity|]. rewrite A. vm_compute. reflexivity.
Defined.

(** Seeking to the end while playing never leaves the engine playing
    past the next frame.  From a reachable playing state, after a seek to
    [duration] and, any time later, a frame: if the new session started,
    the frame has ended it, and the engine is stopped without a session or
    an error, with the offset and the displayed time back at 0; if the new
    session failed to start, the engine is stopped with the error recorded,
    the offset and the displayed time at [duration], still referring to the
    stopped session. *)
Theorem seek_to_end_stops_at_next_frame
    (p : Player) (startOk : bool) (dt : Q) :
  reachable p -> isPlaying p = true -> 0 <= dt ->
  let q := run [Seek (duration p) startOk; Advance dt; Frame] p in
  isPlaying q = false
  /\ (startOk = true ->
        error q = None /\ sourceNodeRef q = None
        /\ offsetRef q = 0 /\ currentTime q = 0)
  /\ (startOk = false ->
        error q = Some playbackErrorMessage
        /\ offsetRef q = duration p /\ currentTime q = duration p
        /\ exists n, sourceNodeRef q = Some n /\ nodeStopped n = true).
Proof.
  intros R P Hdt.
  destruct (playing_shape p R P)
    as (ld & d & ct & r & ctx & buf & n & st & off & -> & Hs & Hbuf & Hc & Hr
        & Ho & Hd).
  cbn [duration]. rewrite !run_cons, run_nil.
  destruct startOk.
  - rewrite seek_playing_state, advance_state, resume_currentTime.
    rewrite frame_end_state.
    + split; [reflexivity|]. split; [intros _; repeat split|discriminate].
    + apply Qgeb_true. cbn [ctxCurrentTime].
      assert (0 <= dt * r) by (apply Qmult_le_0_compat; lra).
      setoid_replace (ctxCurrentTime ctx + dt - ctxCurrentTime ctx) with dt
        by ring.
      lra.
  - rewrite seek_failed_state, advance_state, frame_not_playing.
    split; [reflexivity|]. split; [discriminate|]. intros _.
    repeat split. exists (stopNode n). split; reflexivity.
Qed.

Lemma seek_to_end_stops_at_next_frame_witness :
  let p := run [Load "UklGRg==" Running (Some (mkBuffer 10)); TogglePlay true;
                Advance 2] initial in
  let q := run [Seek 10 true; Advance 0; Frame] p in
  let q' := run [Seek 10 false; Advance 0; Frame] p in
  isPlaying q = false /\ offsetRef q = 0
  /\ isPlaying q' = false /\ offsetRef q' = 10.
Proof.
  cbv zeta.
  set (p := run _ initial).
  assert (R : reachable p).
  { apply reachable_run; [constructor|].
    cbn [enabledAll]. repeat split; vm_compute; discriminate. }
  destruct (seek_to_end_stops_at_next_frame p true 0 R) as (A & Ok & _);
    [reflexivity|discriminate|].
  destruct (Ok eq_refl) as (_ & _ & B & _).
  destruct (seek_to_end_stops_at_next_frame p false 0 R) as (A' & _ & Ko);
    [reflexivity|discriminate|].
  destruct (Ko eq_refl) as (_ & B' & _).
  split; [exact A|]. split; [exact B|]. split; [exact A'|exact B'].
Defined.

(** Loading a payload that decodes starts from a clean slate whatever came
    before: not playing, not loading, no error, no session, a new context
    with its clock at 0, offset and displayed time 0, the duration of the
    new buffer.  Only the playback rate (and the stale start time) survive
    the load. *)
Theorem load_gives_fresh_state
    (p : Player) (b64 : string) (st : ContextState) (buf : AudioBuffer) :
  b64 <> EmptyString ->
  (forall ctx, audioContextRef p = Some ctx -> ctxState ctx <> Closed) ->
  step (Load b64 st (Some buf)) p
  = mkPlayer false false None (bufDuration buf) 0 (playbackRate p)
      (Some (newAudioContext st)) (Some buf) None (startTimeRef p) 0.
Proof.
  intros N HC. cbn [step]. unfold initAudio.
  destruct (String.eqb_spec b64 EmptyString) as [E|_]; [contradiction|].
  unfold cleanup, stopAudio, discardSession.
  destruct p as [pl ld er d ct r ac ab sn s off]. cbn in HC.
  destruct sn, ac as [[now []]|]; cbn; try reflexivity.
  all: exfalso; apply (HC _ eq_refl); reflexivity.
Qed.

(** A second payload loaded in the middle of playback at rate 1.25. *)
Lemma load_gives_fresh_state_witness :
  let p := run [Load "UklGRg==" Running (Some (mkBuffer 10)); CycleSpeed true;
                TogglePlay true; Advance 2] initial in
  let q := step (Load "T2dnUw==" Suspended (Some (mkBuffer 4))) p in
  isPlaying p = true /\ isPlaying q = false /\ duration q = 4
  /\ playbackRate q = 1.25 /\ offsetRef q = 0 /\ sourceNodeRef q = None.
Proof.
  cbv zeta.
  set (p := run _ initial).
  rewrite (load_gives_fresh_state p "T2dnUw==" Suspended (mkBuffer 4));
    [|discriminate|intros ctx [= <-]; discriminate].
  repeat split.
Defined.

(** Pausing, stopping and ending are idempotent: pausing a paused engine
    changes nothing (so elapsed time is not added twice), and neither does
    a second [stopAudio] or a second [handleEnded]. *)
Theorem pause_is_idempotent (p : Player) :
  let paused := pauseAudio p p in
  pauseAudio paused paused = paused
  /\ stopAudio (stopAudio p) = stopAudio p
  /\ handleEnded (handleEnded p) = handleEnded p.
Proof.
  destruct p as [pl ld er d ct r ac ab sn s off].
  unfold pauseAudio, handleEnded, stopAudio, discardSession. cbn.
  destruct sn, ac, pl; cbn; auto.
Qed.

(** ** The time label *)

Lemma Qtruncate_nonneg (q : Q) : 0 <= q -> Qtruncate q = Qfloor q.
Proof.
  destruct q as [n d]. unfold Qtruncate, Qfloor, Qle. cbn. intro H.
  apply Z.quot_div_nonneg; lia.
Qed.

Lemma Qfloor_shift (x : Q) (k : Z) :
  Qfloor (x - inject_Z k) = (Qfloor x - k)%Z.
Proof.
  assert (L := Qfloor_le x). assert (U := Qlt_floor x).
  assert (L' := Qfloor_le (x - inject_Z k)).
  assert (U' := Qlt_floor (x - inject_Z k)).
  rewrite inject_Z_plus in U, U'. change (inject_Z 1) with 1 in U, U'.
  assert (A : inject_Z (Qfloor (x - inject_Z k)) < inject_Z (Qfloor x - k + 1)).
  { unfold Z.sub. rewrite !inject_Z_plus, inject_Z_opp.
    change (inject_Z 1) with 1. lra. }
  assert (B : inject_Z (Qfloor x - k) < inject_Z (Qfloor (x - inject_Z k) + 1)).
  { unfold Z.sub. rewrite !inject_Z_plus, inject_Z_opp.
    change (inject_Z 1) with 1. lra. }
  rewrite <- Zlt_Qlt in A, B. lia.
Qed.

Lemma pad_seconds (s : Z) :
  (0 <= s < 60)%Z -> padStart 2 "0" (numberToString s) = twoDigits s.
Proof.
  intro H. rewrite <- (Z2Nat.id s) by lia.
  assert (Hn : (Z.to_nat s < 60)%nat) by lia.
  generalize dependent (Z.to_nat s). clear. intros n Hn.
  do 60 (destruct n as [|n]; [reflexivity|]). lia.
Qed.

(** The label of a time that is not negative is minutes, a colon, and the
    seconds on two digits: for 0 <= t < 2^53, [formatTime t] is [m:ss] with
    [0 <= ss < 60] and [60 * m + ss] the whole seconds of [t]; a time that
    is not finite is shown as 0:00.  (From about 2^53 on the source's
    division and printing of binary64 numbers are no longer exact, and the
    statement stops there.) *)
Theorem formatTime_minutes_seconds (t : Q) :
  0 <= t -> t < 9007199254740992 ->
  formatTime NaN = "0:00"%string
  /\ formatTime PlusInfinity = "0:00"%string
  /\ formatTime MinusInfinity = "0:00"%string
  /\ exists m s : Z,
       (0 <= m < 150119987579017)%Z /\ (0 <= s < 60)%Z
       /\ (60 * m + s = Qfloor t)%Z
       /\ formatTime (Finite t)
          = (numberToString m ++ ":" ++ twoDigits s)%string.
Proof.
  intros Ht Hb. do 3 (split; [reflexivity|]).
  set (m := Qfloor (t / 60)).
  assert (Lm := Qfloor_le (t / 60)). assert (Um := Qlt_floor (t / 60)).
  fold m in Lm, Um. rewrite inject_Z_plus in Um.
  change (inject_Z 1) with 1 in Um.
  assert (Et : t == (t / 60) * 60) by field.
  assert (Hm : (0 <= m)%Z).
  { assert (0 <= t / 60) by (apply Qle_shift_div_l; lra).
    change 0%Z with (Qfloor 0). now apply Qfloor_resp_le. }
  assert (Hm' : (m < 150119987579017)%Z).
  { assert (I : inject_Z m < inject_Z 150119987579017).
    { change (inject_Z 150119987579017) with 150119987579017. lra. }
    now rewrite <- Zlt_Qlt in I. }
  assert (Hrem : jsRemainder t 60 == t - inject_Z (60 * m)).
  { unfold jsRemainder.
    rewrite Qtruncate_nonneg by (apply Qle_shift_div_l; lra).
    fold m. rewrite inject_Z_mult. reflexivity. }
  assert (Hs : Qfloor (jsRemainder t 60) = (Qfloor t - 60 * m)%Z).
  { rewrite <- Qfloor_shift. apply Qfloor_comp. exact Hrem. }
  exists m, (Qfloor t - 60 * m)%Z.
  assert (Hl : (60 * m <= Qfloor t)%Z).
  { rewrite <- (Qfloor_Z (60 * m)). apply Qfloor_resp_le.
    rewrite inject_Z_mult. change (inject_Z 60) with 60. lra. }
  assert (Hu : (Qfloor t < 60 * m + 60)%Z).
  { assert (t < inject_Z (60 * m + 60)).
    { rewrite inject_Z_plus, inject_Z_mult. change (inject_Z 60) with 60.
      lra. }
    assert (I : inject_Z (Qfloor t) < inject_Z (60 * m + 60)).
    { assert (Lt := Qfloor_le t). lra. }
    now rewrite <- Zlt_Qlt in I. }
  split; [split; assumption|]. split; [lia|]. split; [lia|].
  unfold formatTime. cbn [isFinite isNaN negb orb]. fold m. rewrite Hs.
  rewrite pad_seconds by lia. reflexivity.
Qed.

Lemma formatTime_minutes_seconds_witness :
  formatTime (Finite 125.7) = "2:05"%string
  /\ exists m s : Z,
       (0 <= s < 60)%Z /\ (60 * m + s = 125)%Z
       /\ formatTime (Finite 125.7)
          = (numberToString m ++ ":" ++ twoDigits s)%string.
Proof.
  split; [reflexivity|].
  destruct (formatTime_minutes_seconds 125.7) as (_ & _ & _ & m & s & _ & Hs
                                                  & E & F);
    [discriminate|reflexivity|].
  exists m, s. split; [exact Hs|]. split; [exact E|exact F].
Defined.

End AudioPlayer.

(** * The service and the application: properties *)

Module AppProperties.
Import Types.
Local Open Scope string_scope.

(** ** Splitting a data URL *)

Lemma append_snoc (acc : string) (c : ascii) (s : string) :
  ((acc ++ String c EmptyString) ++ s = acc ++ String c s)%string.
Proof.
  induction acc as [|a acc IH]; cbn; [reflexivity|now rewrite IH].
Qed.

Lemma append_empty (s : string) : (s ++ EmptyString)%string = s.
Proof.
  induction s as [|a s IH]; cbn; [reflexivity|now rewrite IH].
Qed.

Lemma includes_char_cons (sep c : ascii) (s : string) :
  GeminiService.includes (String c s) (String sep EmptyString) = false ->
  Ascii.eqb c sep = false
  /\ GeminiService.includes s (String sep EmptyString) = false.
Proof.
  cbn. intro H. apply orb_false_iff in H as [H1 H2]. split; [|exact H2].
  destruct (Ascii.ascii_dec sep c) as [->|N]; [destruct s; discriminate H1|].
  apply Ascii.eqb_neq. congruence.
Qed.

Lemma splitFrom_segment (sep : ascii) (h : string) :
  GeminiService.includes h (String sep EmptyString) = false ->
  forall acc rest,
    GeminiService.splitFrom sep acc (h ++ String sep rest)
    = (acc ++ h)%string :: GeminiService.splitFrom sep EmptyString rest.
Proof.
  induction h as [|c h IH]; intros H acc rest.
  - cbn. rewrite Ascii.eqb_refl. now rewrite append_empty.
  - apply includes_char_cons in H as [Hc Hh]. cbn. rewrite Hc.
    rewrite (IH Hh). now rewrite append_snoc.
Qed.

Lemma splitFrom_last (sep : ascii) (p : string) :
  GeminiService.includes p (String sep EmptyString) = false ->
  forall acc, GeminiService.splitFrom sep acc p = [(acc ++ p)%string].
Proof.
  induction p as [|c p IH]; intros H acc.
  - cbn. now rewrite append_empty.
  - apply includes_char_cons in H as [Hc Hp]. cbn. rewrite Hc.
    rewrite (IH Hp). now rewrite append_snoc.
Qed.

(** The file read hands the model the payload of the data URL, without
    its header: for a result [header,payload] with no further comma, the
    promise resolves with [payload]. *)
Theorem fileToGenerativePart_strips_header (header payload : string) :
  GeminiService.includes header "," = false ->
  GeminiService.includes payload "," = false ->
  GeminiService.fileToGenerativePart
    (GeminiService.ReadLoaded (Some (header ++ "," ++ payload)%string))
  = inr (Some payload).
Proof.
  intros Hh Hp. unfold GeminiService.fileToGenerativePart.
  assert (T : GeminiService.truthy (header ++ "," ++ payload) = true).
  { unfold GeminiService.truthy. destruct header; reflexivity. }
  rewrite T. unfold GeminiService.split.
  change ("," ++ payload)%string with (String "," payload).
  rewrite (splitFrom_segment "," header Hh).
  rewrite (splitFrom_last "," payload Hp). reflexivity.
Qed.

Lemma fileToGenerativePart_strips_header_witness :
  GeminiService.fileToGenerativePart
    (GeminiService.ReadLoaded (Some "data:image/jpeg;base64,/9j/4AAQ"))
  = inr (Some "/9j/4AAQ"%string).
Proof.
  apply (fileToGenerativePart_strips_header "data:image/jpeg;base64"
           "/9j/4AAQ"); reflexivity.
Defined.

Ltac known_message :=
  cbn; repeat first [left; reflexivity | right].

Lemma analysisCatch_known (m : option string) (st : option Z) :
  In (GeminiService.message
        (GeminiService.analysisCatch (GeminiService.ThrownOther m st)))
     GeminiService.serviceMessages.
Proof.
  unfold GeminiService.analysisCatch.
  destruct (_ || _); [known_message|].
  destruct (_ || _); [known_message|].
  destruct (GeminiService.statusIs st 503); [known_message|].
  destruct (GeminiService.statusIs st 429); known_message.
Qed.

Lemma serviceMessages_nonempty (m : string) :
  In m GeminiService.serviceMessages -> m <> EmptyString.
Proof.
  unfold GeminiService.serviceMessages. cbn [In].
  intros H. repeat (destruct H as [<-|H]; [discriminate|]). destruct H.
Qed.

Lemma analyze_cases
    (read : GeminiService.ReadOutcome)
    (sdk : GeminiService.SdkOutcome (option string))
    (parse : string -> option GeminiService.AnalysisData) :
  (exists e,
     GeminiService.analyzeMedicalDocument read sdk parse = inl e
     /\ In (GeminiService.message e) GeminiService.serviceMessages)
  \/ (exists text d,
        GeminiService.analyzeMedicalDocument read sdk parse
        = inr (mkAnalysisResult (GeminiService.dataRawText d)
                 (GeminiService.dataSimplifiedExplanation d)
                 (GeminiService.dataSummaryCard d) None)
        /\ sdk = GeminiService.SdkReturns (Some text)
        /\ text <> EmptyString
        /\ parse text = Some d).
Proof.
  unfold GeminiService.analyzeMedicalDocument.
  destruct (GeminiService.fileToGenerativePart read) as [e|b] eqn:F.
  - left. exists e. split; [reflexivity|].
    unfold GeminiService.fileToGenerativePart in F.
    destruct read as [|[s|]]; try destruct (GeminiService.truthy s);
      inversion F; subst; known_message.
  - destruct sdk as [m st|[text|]].
    + left. eexists. split; [reflexivity|apply analysisCatch_known].
    + destruct (GeminiService.truthy text) eqn:T.
      * destruct (parse text) as [d|] eqn:P.
        -- right. exists text, d. repeat split; try assumption.
           unfold GeminiService.truthy in T. apply negb_true_iff in T.
           now apply String.eqb_neq in T.
        -- left. eexists. split; [reflexivity|known_message].
      * left. eexists. split; [reflexivity|known_message].
    + left. eexists. split; [reflexivity|known_message].
Qed.

Lemma audio_cases (sdk : GeminiService.SdkOutcome (option string)) :
  (exists e,
     GeminiService.generateAudioExplanation sdk = inl e
     /\ In (GeminiService.message e) GeminiService.serviceMessages
     /\ (GeminiService.type e = GeminiService.NETWORK
         \/ GeminiService.type e = GeminiService.AUDIO))
  \/ (exists data,
        GeminiService.generateAudioExplanation sdk = inr data
        /\ GeminiService.truthy data = true
        /\ sdk = GeminiService.SdkReturns (Some data)).
Proof.
  unfold GeminiService.generateAudioExplanation.
  destruct sdk as [m st|[data|]].
  - left. cbn. destruct (GeminiService.messageIncludes m "fetch failed");
      eexists; (split; [reflexivity|]); cbn; (split; [known_message|auto]).
  - destruct (GeminiService.truthy data) eqn:T.
    + right. exists data. auto.
    + left. eexists. split; [reflexivity|]. cbn. split; [known_message|auto].
  - left. eexists. split; [reflexivity|]. cbn. split; [known_message|auto].
Qed.

Lemma truthy_nonempty (s : string) :
  GeminiService.truthy s = true <-> s <> EmptyString.
Proof.
  unfold GeminiService.truthy. rewrite negb_true_iff. apply String.eqb_neq.
Qed.

(** However the file read, the model call and the parsing end,
    [analyzeMedicalDocument] either rejects with a [ServiceError] carrying
    one of the module's own, non-empty messages (the text of an error of
    the model call is never passed on), or returns the parsed fields with
    [audioBase64] left undefined. *)
Theorem analyzeMedicalDocument_outcomes
    (read : GeminiService.ReadOutcome)
    (sdk : GeminiService.SdkOutcome (option string))
    (parse : string -> option GeminiService.AnalysisData) :
  match GeminiService.analyzeMedicalDocument read sdk parse with
  | inl e =>
      In (GeminiService.message e) GeminiService.serviceMessages
      /\ GeminiService.message e <> EmptyString
  | inr r =>
      audioBase64 r = None
      /\ exists text d,
           sdk = GeminiService.SdkReturns (Some text) /\ parse text = Some d
           /\ rawText r = GeminiService.dataRawText d
           /\ simplifiedExplanation r
              = GeminiService.dataSimplifiedExplanation d
           /\ summaryCard r = GeminiService.dataSummaryCard d
  end.
Proof.
  destruct (analyze_cases read sdk parse)
    as [(e & -> & K)|(text & d & -> & S & _ & P)].
  - split; [exact K|now apply serviceMessages_nonempty].
  - split; [reflexivity|]. exists text, d. repeat split; assumption.
Qed.

(** [generateAudioExplanation] either returns the audio data of the
    response, which is then not empty, or rejects with one of the module's
    messages, of type NETWORK or AUDIO: a response without data is a
    rejection, not an empty payload. *)
Theorem generateAudioExplanation_outcomes
    (sdk : GeminiService.SdkOutcome (option string)) :
  match GeminiService.generateAudioExplanation sdk with
  | inl e =>
      In (GeminiService.message e) GeminiService.serviceMessages
      /\ (GeminiService.type e = GeminiService.NETWORK
          \/ GeminiService.type e = GeminiService.AUDIO)
  | inr data =>
      data <> EmptyString /\ sdk = GeminiService.SdkReturns (Some data)
  end.
Proof.
  destruct (audio_cases sdk) as [(e & -> & K & T)|(data & -> & T & S)].
  - split; assumption.
  - split; [now apply truthy_nonempty|exact S].
Qed.

(** ** The application *)

Lemma shown_button (s : App.Model) :
  App.actionButtonShown s = true ->
  exists f, App.file s = Some f /\ App.result s = None
            /\ App.uploadDisabled s = false.
Proof.
  unfold App.actionButtonShown.
  destruct (App.file s) as [f|]; [|discriminate].
  destruct (App.result s); [discriminate|].
  intro H. apply negb_true_iff in H. exists f. auto.
Qed.

(** A run rests while a call is pending and ends when the calls settle.
    Started with the action button shown: while the analysis is pending the
    state is ANALYZING, and while the audio is pending after a successful
    analysis it is GENERATING_AUDIO with the analysis on display, in both
    cases with the upload disabled and no error shown (the source sets no
    timeout, so only a settled call leads on from there).  With both calls
    settled the state is that of [handleProcess] run to its end.  Whenever
    the upload is not disabled the state is SUCCESS or ERROR; an error
    message is shown exactly in the ERROR case, and it is one of the
    service's fixed messages, never the fallback text of [App]. *)
Theorem processDocument_rests_or_ends
    (analysis :
       option (GeminiService.ReadOutcome
               * GeminiService.SdkOutcome (option string)))
    (parse : string -> option GeminiService.AnalysisData)
    (audio : option (GeminiService.SdkOutcome (option string)))
    (s : App.Model) :
  App.actionButtonShown s = true ->
  let s' := App.processDocumentSoFar analysis parse audio s in
  (analysis = None ->
     App.appState s' = ANALYZING /\ App.uploadDisabled s' = true
     /\ App.error s' = None /\ App.result s' = None)
  /\ (forall read sdk a,
        analysis = Some (read, sdk) ->
        GeminiService.analyzeMedicalDocument read sdk parse = inr a ->
        audio = None ->
        App.appState s' = GENERATING_AUDIO /\ App.uploadDisabled s' = true
        /\ App.error s' = None /\ App.result s' = Some a)
  /\ (forall read sdkAnalysis sdkAudio,
        analysis = Some (read, sdkAnalysis) -> audio = Some sdkAudio ->
        s' = App.processDocument read sdkAnalysis parse sdkAudio s
        /\ App.uploadDisabled s' = false)
  /\ (App.uploadDisabled s' = false ->
        App.appState s' = SUCCESS \/ App.appState s' = ERROR)
  /\ (App.appState s' = ERROR <-> App.error s' <> None)
  /\ (forall m, App.error s' = Some m ->
        In m GeminiService.serviceMessages /\ m <> App.defaultMessage).
Proof.
  intros B s'. destruct (shown_button s B) as (f & F & Rn & _).
  destruct s as [fl st rs er]. cbn in F, Rn. subst fl rs.
  assert (ND : ~ In App.defaultMessage GeminiService.serviceMessages).
  { unfold GeminiService.serviceMessages, App.defaultMessage. cbn [In].
    intro H. repeat (destruct H as [H|H]; [discriminate H|]). exact H. }
  assert (Known : forall e m,
            In (GeminiService.message e) GeminiService.serviceMessages ->
            Some (GeminiService.message e) = Some m ->
            In m GeminiService.serviceMessages /\ m <> App.defaultMessage).
  { intros e m K [= <-]. split; [exact K|].
    intro E. apply ND. now rewrite <- E. }
  unfold s', App.processDocumentSoFar, App.processDocument,
    App.handleProcessSoFar, App.handleProcess.
  cbn [App.file].
  destruct analysis as [[read sdkA]|].
  - destruct (analyze_cases read sdkA parse)
      as [(e & Ea & K)|(text & d & Ea & _)].
    + (* the analysis was rejected *)
      rewrite Ea. cbn.
      split; [discriminate|].
      split; [intros ? ? ? [= <- <-] Ea'; rewrite Ea in Ea'; discriminate|].
      split.
      { intros ? ? ? [= <- <-] _. rewrite Ea. split; reflexivity. }
      split; [now right|].
      split; [split; [discriminate|reflexivity]|].
      intro m. apply Known. exact K.
    + destruct audio as [sdkT|].
      * (* both calls have settled *)
        destruct (audio_cases sdkT) as [(e & Et & K & _)|(data & Et & _)].
        -- rewrite Ea, Et. cbn.
           split; [discriminate|].
           split; [intros ? ? ? _ _; discriminate|].
           split.
           { intros ? ? ? [= <- <-] [= <-]. rewrite Ea, Et.
             split; reflexivity. }
           split; [now right|].
           split; [split; [discriminate|reflexivity]|].
           intro m. apply Known. exact K.
        -- rewrite Ea, Et. cbn.
           split; [discriminate|].
           split; [intros ? ? ? _ _; discriminate|].
           split.
           { intros ? ? ? [= <- <-] [= <-]. rewrite Ea, Et.
             split; reflexivity. }
           split; [now left|].
           split; [split; [discriminate|intro H; now contradiction H]|].
           discriminate.
      * (* the audio is pending *)
        rewrite Ea. cbn.
        split; [discriminate|].
        split.
        { intros read' sdk' a [= <- <-] Ea' _. rewrite Ea in Ea'.
          injection Ea' as <-. repeat split. }
        split; [intros ? ? ? _; discriminate|].
        split; [discriminate|].
        split; [split; [discriminate|intro H; now contradiction H]|].
        discriminate.
  - (* the analysis is pending *)
    cbn. split; [intros _; repeat split|].
    split; [intros ? ? ?; discriminate|].
    split; [intros ? ? ?; discriminate|].
    split; [discriminate|].
    split; [split; [discriminate|intro H; now contradiction H]|].
    discriminate.
Qed.

Lemma processDocument_rests_or_ends_witness :
  let s := App.handleFileSelect (App.mkFile "note.jpg" "image/jpeg")
             App.initial in
  let pending := App.processDocumentSoFar None (fun _ => None) None s in
  let failed :=
    App.processDocumentSoFar
      (Some (GeminiService.ReadLoaded (Some "data:,AAAA"),
             GeminiService.SdkThrows (Some "fetch failed") (Some 429%Z)))
      (fun _ => None) None s in
  App.appState pending = ANALYZING /\ App.uploadDisabled pending = true
  /\ App.appState failed = ERROR
  /\ App.error failed = Some "Please check your internet connection.".
Proof.
  cbv zeta.
  destruct (processDocument_rests_or_ends None (fun _ => None) None
              (App.handleFileSelect (App.mkFile "note.jpg" "image/jpeg")
                 App.initial)) as (Rest & _); [reflexivity|].
  destruct (Rest eq_refl) as (A & U & _).
  destruct (processDocument_rests_or_ends
              (Some (GeminiService.ReadLoaded (Some "data:,AAAA"),
                     GeminiService.SdkThrows (Some "fetch failed")
                       (Some 429%Z)))
              (fun _ => None) None
              (App.handleFileSelect (App.mkFile "note.jpg" "image/jpeg")
                 App.initial)) as (_ & _ & _ & _ & Err & _); [reflexivity|].
  split; [exact A|]. split; [exact U|]. split; [|reflexivity].
  apply Err. discriminate.
Defined.

(** The audio player is mounted exactly when the run ends in SUCCESS,
    and the payload it is mounted with is the data the speech service
    returned, which is not empty. *)
Theorem player_mounted_exactly_on_success
    (read : GeminiService.ReadOutcome)
    (sdkAnalysis : GeminiService.SdkOutcome (option string))
    (parse : string -> option GeminiService.AnalysisData)
    (sdkAudio : GeminiService.SdkOutcome (option string))
    (s : App.Model) :
  App.actionButtonShown s = true ->
  let s' := App.processDocument read sdkAnalysis parse sdkAudio s in
  (App.appState s' = SUCCESS <-> App.playerPayload s' <> None)
  /\ (forall b, App.playerPayload s' = Some b ->
        b <> EmptyString
        /\ GeminiService.generateAudioExplanation sdkAudio = inr b).
Proof.
  intros B s'. destruct (shown_button s B) as (f & F & Rn & _).
  assert (NoPlayer : forall t (g : GeminiService.ServiceError + string),
            App.appState t = ERROR -> App.playerPayload t = None ->
            (App.appState t = SUCCESS <-> App.playerPayload t <> None)
            /\ (forall b, App.playerPayload t = Some b ->
                  b <> EmptyString /\ g = inr b)).
  { intros t g At Pt. rewrite At, Pt. split; [|discriminate].
    split; [discriminate|]. intro H. now contradiction H. }
  unfold s', App.processDocument, App.handleProcess. rewrite F.
  destruct (analyze_cases read sdkAnalysis parse)
    as [(e & -> & K)|(text & d & -> & _)].
  - apply NoPlayer; [reflexivity|].
    unfold App.playerPayload. cbn. now rewrite Rn.
  - destruct (audio_cases sdkAudio) as [(e & E & K & _)|(data & E & T & _)];
      rewrite E.
    + apply NoPlayer; reflexivity.
    + unfold App.playerPayload. cbn. rewrite T.
      split; [split; [discriminate|reflexivity]|].
      intros b' [= <-]. split; [now apply truthy_nonempty|reflexivity].
Qed.

Lemma player_mounted_exactly_on_success_witness :
  let s := App.handleFileSelect (App.mkFile "note.jpg" "image/jpeg")
             App.initial in
  let s' :=
    App.processDocument (GeminiService.ReadLoaded (Some "data:,AAAA"))
      (GeminiService.SdkReturns (Some "{}"))
      (fun _ =>
         Some (GeminiService.mkAnalysisData "Rx" "Take one"
                 (mkSummaryCardData [] "" "" "" "" "" "")))
      (GeminiService.SdkReturns (Some "UklGRg==")) s in
  App.appState s' = SUCCESS
  /\ App.playerPayload s' = Some "UklGRg=="%string.
Proof.
  cbv zeta. split; [reflexivity|].
  destruct (player_mounted_exactly_on_success
              (GeminiService.ReadLoaded (Some "data:,AAAA"))
              (GeminiService.SdkReturns (Some "{}"))
              (fun _ =>
                 Some (GeminiService.mkAnalysisData "Rx" "Take one"
                         (mkSummaryCardData [] "" "" "" "" "" "")))
              (GeminiService.SdkReturns (Some "UklGRg=="))
              (App.handleFileSelect (App.mkFile "note.jpg" "image/jpeg")
                 App.initial)) as (_ & _); [reflexivity|].
  reflexivity.
Defined.

(** After a run the action button is shown again exactly when the
    analysis itself failed.  When only the audio failed, the analysis stays
    on display and the button stays hidden; choosing a file brings the
    button back in every case.  The chosen file is kept throughout. *)
Theorem retry_only_after_failed_analysis
    (read : GeminiService.ReadOutcome)
    (sdkAnalysis : GeminiService.SdkOutcome (option string))
    (parse : string -> option GeminiService.AnalysisData)
    (sdkAudio : GeminiService.SdkOutcome (option string))
    (s : App.Model) :
  App.actionButtonShown s = true ->
  let s' := App.processDocument read sdkAnalysis parse sdkAudio s in
  App.file s' = App.file s
  /\ (App.actionButtonShown s' = true <->
      exists e,
        GeminiService.analyzeMedicalDocument read sdkAnalysis parse = inl e)
  /\ (forall selected,
        App.actionButtonShown (App.handleFileSelect selected s') = true).
Proof.
  intros B s'. destruct (shown_button s B) as (f & F & Rn & _).
  destruct s as [fl st rs er]. cbn in F, Rn. subst fl rs.
  unfold s', App.processDocument, App.handleProcess. cbn [App.file].
  destruct (analyze_cases read sdkAnalysis parse)
    as [(e & -> & K)|(text & d & -> & _)].
  - cbn. split; [reflexivity|]. split; [|reflexivity].
    split; [intros _; now exists e|reflexivity].
  - destruct (audio_cases sdkAudio) as [(e & -> & K & _)|(data & -> & _)];
      cbn; (split; [reflexivity|]); (split; [|reflexivity]);
      (split; [discriminate|intros [e' E']; discriminate]).
Qed.

Lemma retry_only_after_failed_analysis_witness :
  let s := App.handleFileSelect (App.mkFile "note.jpg" "image/jpeg")
             App.initial in
  let s' :=
    App.processDocument (GeminiService.ReadLoaded (Some "data:,AAAA"))
      (GeminiService.SdkReturns (Some "{}"))
      (fun _ =>
         Some (GeminiService.mkAnalysisData "Rx" "Take one"
                 (mkSummaryCardData [] "" "" "" "" "" "")))
      (GeminiService.SdkThrows None None) s in
  App.appState s' = ERROR /\ App.actionButtonShown s' = false
  /\ App.file s' = App.file s.
Proof.
  cbv zeta.
  destruct (retry_only_after_failed_analysis
              (GeminiService.ReadLoaded (Some "data:,AAAA"))
              (GeminiService.SdkReturns (Some "{}"))
              (fun _ =>
                 Some (GeminiService.mkAnalysisData "Rx" "Take one"
                         (mkSummaryCardData [] "" "" "" "" "" "")))
              (GeminiService.SdkThrows None None)
              (App.handleFileSelect (App.mkFile "note.jpg" "image/jpeg")
                 App.initial)) as (F & _); [reflexivity|].
  split; [reflexivity|]. split; [reflexivity|exact F].
Defined.

(** For an error that is not a [ServiceError], the message [App] shows
    is never empty and never contains "Unexpected token" or "fetch": such
    texts are replaced by the fallback message. *)
Theorem messageFor_hides_raw_errors (m : option string) (st : option Z) :
  let shown := App.messageFor (GeminiService.ThrownOther m st) in
  GeminiService.includes shown "Unexpected token" = false
  /\ GeminiService.includes shown "fetch" = false
  /\ shown <> EmptyString.
Proof.
  assert (D : GeminiService.includes App.defaultMessage "Unexpected token" = false
              /\ GeminiService.includes App.defaultMessage "fetch" = false
              /\ App.defaultMessage <> EmptyString).
  { repeat split; [vm_compute; reflexivity..|discriminate]. }
  cbn. destruct m as [m|]; [|exact D].
  destruct (GeminiService.truthy m) eqn:T; [|exact D].
  destruct (GeminiService.includes m "Unexpected token") eqn:U; [exact D|].
  destruct (GeminiService.includes m "fetch") eqn:Fe; [exact D|].
  cbn. repeat split; try assumption. now apply truthy_nonempty.
Qed.

(** ** The application and the player *)

(** When the application mounts the player, the player decodes: the
    payload it is given is not empty, so [initAudio] does not return early;
    the load ends not loading and not playing, with the decode error when
    decoding fails and with no error when it succeeds. *)
Theorem mounted_player_decodes
    (read : GeminiService.ReadOutcome)
    (sdkAnalysis : GeminiService.SdkOutcome (option string))
    (parse : string -> option GeminiService.AnalysisData)
    (sdkAudio : GeminiService.SdkOutcome (option string))
    (s : App.Model) (b : string)
    (st : AudioPlayer.ContextState) (decoded : option AudioPlayer.AudioBuffer)
    (p : AudioPlayer.Player) :
  App.actionButtonShown s = true ->
  App.playerPayload
    (App.processDocument read sdkAnalysis parse sdkAudio s) = Some b ->
  let q := AudioPlayer.step (AudioPlayer.Load b st decoded) p in
  AudioPlayer.error q
  = match decoded with
    | Some _ => None
    | None => Some AudioPlayer.decodeErrorMessage
    end
  /\ AudioPlayer.isLoading q = false
  /\ AudioPlayer.isPlaying q = false.
Proof.
  intros B M q.
  assert (N : b <> EmptyString).
  { unfold App.playerPayload in M.
    destruct (App.result _) as [r|]; [|discriminate].
    destruct (audioBase64 r) as [b'|]; [|discriminate].
    destruct (GeminiService.truthy b') eqn:T; [|discriminate].
    injection M as <-. now apply truthy_nonempty. }
  unfold q. cbn [AudioPlayer.step]. unfold AudioPlayer.initAudio.
  destruct (String.eqb_spec b EmptyString) as [E|_]; [contradiction|].
  pose proof (AudioPlayer.cleanup_isPlaying p) as C.
  destruct (AudioPlayer.cleanup p) as [pl ld er d ct r ac ab sn s0 off].
  cbn in C. subst pl.
  destruct decoded, ac; cbn; auto.
Qed.

Lemma mounted_player_decodes_witness :
  let s := App.handleFileSelect (App.mkFile "note.jpg" "image/jpeg")
             App.initial in
  let q :=
    AudioPlayer.step
      (AudioPlayer.Load "UklGRg==" AudioPlayer.Running
         (Some (AudioPlayer.mkBuffer 10)))
      AudioPlayer.initial in
  AudioPlayer.error q = None /\ AudioPlayer.duration q = 10.
Proof.
  cbv zeta.
  destruct (mounted_player_decodes
              (GeminiService.ReadLoaded (Some "data:,AAAA"))
              (GeminiService.SdkReturns (Some "{}"))
              (fun _ =>
                 Some (GeminiService.mkAnalysisData "Rx" "Take one"
                         (mkSummaryCardData [] "" "" "" "" "" "")))
              (GeminiService.SdkReturns (Some "UklGRg=="))
              (App.handleFileSelect (App.mkFile "note.jpg" "image/jpeg")
                 App.initial)
              "UklGRg==" AudioPlayer.Running (Some (AudioPlayer.mkBuffer 10))
              AudioPlayer.initial) as (E & _); [reflexivity|reflexivity|].
  split; [exact E|reflexivity].
Defined.

End AppProperties.
